(** * ProjectBabble: the frame-acquisition engine of [BabbleApp/camera.py]

    A shallow embedding of the [Camera] class: the serial framing protocol
    ([get_next_jpeg_frame]), the two capture back ends, the resolution clamp
    and one iteration of the [run] loop, followed by the properties of the
    specification that were checked against it.

    Conventions of the embedding:
    - a Python [bytes] value is a [list byte]; every slice of the source has
      non-negative bounds, so [b[i:j]] is [slice i j b];
    - [bytes.find]/[bytes.rfind] return [None] where Python returns [-1];
    - Python floats are IEEE-754 binary64 values, computed with the
      reference implementation [SpecFloat] of the standard library;
    - a method of [Camera] is a computation in the monad [M]: it threads the
      object's fields and may raise (every [except] clause of the source
      catches [Exception], so one exception value suffices). *)

From Stdlib Require Import ZArith NArith List Bool Lia.
From Stdlib Require Import Strings.String Strings.Ascii Strings.Byte.
From Stdlib Require Import DecimalString.
From Stdlib Require Import Floats.SpecFloat.
Import ListNotations.

Set Warnings "-abstract-large-number".

(** ** Byte strings *)

Definition bytes := list byte.

Fixpoint bytes_eqb (a b : bytes) : bool :=
  match a, b with
  | [], [] => true
  | x :: a', y :: b' => Byte.eqb x y && bytes_eqb a' b'
  | _, _ => false
  end.

(** [b[i:j]] for [0 <= i], [0 <= j]. *)
Definition slice (i j : nat) (b : bytes) : bytes := firstn (j - i) (skipn i b).

(** [b.startswith(sub)]. *)
Fixpoint startswith (sub b : bytes) : bool :=
  match sub, b with
  | [], _ => true
  | _ :: _, [] => false
  | x :: sub', y :: b' => Byte.eqb x y && startswith sub' b'
  end.

(** [b.find(sub)], counting positions from [i]. *)
Fixpoint find_from (i : nat) (b sub : bytes) : option nat :=
  if startswith sub b then Some i
  else match b with
       | [] => None
       | _ :: b' => find_from (S i) b' sub
       end.

Definition find (b sub : bytes) : option nat := find_from 0 b sub.

(** [b.rfind(sub)], counting positions from [i]. *)
Fixpoint rfind_from (i : nat) (b sub : bytes) : option nat :=
  match b with
  | [] => if startswith sub b then Some i else None
  | _ :: b' =>
      match rfind_from (S i) b' sub with
      | Some j => Some j
      | None => if startswith sub b then Some i else None
      end
  end.

Definition rfind (b sub : bytes) : option nat := rfind_from 0 b sub.

(** [int.from_bytes(b, signed=False, byteorder="little")]. *)
Fixpoint int_from_bytes_little (b : bytes) : nat :=
  match b with
  | [] => 0
  | x :: b' => N.to_nat (Byte.to_N x) + 256 * int_from_bytes_little b'
  end.

(** ** [libscrc.rohc]: CRC-8/ROHC (polynomial 0x07 reflected, initial value
    0xFF, no final xor), bit by bit. *)

Definition rohc_shift (crc : N) : N :=
  if N.odd crc then N.lxor (N.shiftr crc 1) 224 else N.shiftr crc 1.

Definition rohc_byte (crc : N) (x : byte) : N :=
  Nat.iter 8 rohc_shift (N.lxor crc (Byte.to_N x)).

Definition rohc (data : bytes) : N := fold_left rohc_byte data 255%N.

(** [(~crc & 0xFF).to_bytes(1, "little")]. *)
Definition inverted_low_byte (crc : N) : bytes :=
  match Byte.of_N (N.lxor (N.land crc 255) 255) with
  | Some x => [x]
  | None => []
  end.

(** ** Binary64 arithmetic *)

Definition prec : Z := 53.
Definition emax : Z := 1024.

(** [float(z)] *)
Definition float_of_Z (z : Z) : spec_float := binary_normalize prec emax z 0 false.

Definition float_of_nat (n : nat) : spec_float := float_of_Z (Z.of_nat n).

Definition fmul : spec_float -> spec_float -> spec_float := SFmul prec emax.
Definition fdiv : spec_float -> spec_float -> spec_float := SFdiv prec emax.
Definition fadd : spec_float -> spec_float -> spec_float := SFadd prec emax.
Definition fsub : spec_float -> spec_float -> spec_float := SFsub prec emax.

(** The literal [2.3], i.e. [0x1.2666666666666p+1]. *)
Definition float_2_3 : spec_float := S754_finite false 5179139571476070 (-51).

(** [int(x)] for a finite [x]: truncation toward zero ([int] raises on an
    infinity or a NaN, which no computation below produces). *)
Definition int_of_float (x : spec_float) : Z :=
  match x with
  | S754_finite s m e =>
      let a := match e with
               | Z0 => Zpos m
               | Zpos p => (Zpos m * 2 ^ Zpos p)%Z
               | Zneg p => (Zpos m / 2 ^ Zpos p)%Z
               end in
      if s then (- a)%Z else a
  | _ => 0%Z
  end.

(** [n > x] for a Python int [n] and a float [x]: Python compares the two
    exactly, without converting [n]. *)
Definition int_gt_float (n : Z) (x : spec_float) : bool :=
  match x with
  | S754_zero _ => (0 <? n)%Z
  | S754_infinity s => s
  | S754_nan => false
  | S754_finite s m e =>
      let v := if s then Zneg m else Zpos m in
      match e with
      | Z0 => (v <? n)%Z
      | Zpos p => (v * 2 ^ Zpos p <? n)%Z
      | Zneg p => (v <? n * 2 ^ Zpos p)%Z
      end
  end.

(** ** Constants of the module *)

Definition BUFFER_SIZE : nat := 32768.
Definition MAX_RESOLUTION : nat := 600.
Definition ETVR_HEADER : bytes := [xff; xa0; xff; xa1].
Definition ETVR_HEADER_LEN : nat := 6.
Definition JPEG_EOI : bytes := [xff; xd9].

Inductive CameraState : Type := CONNECTING | CONNECTED | DISCONNECTED.

Definition CameraState_eqb (a b : CameraState) : bool :=
  match a, b with
  | CONNECTING, CONNECTING | CONNECTED, CONNECTED | DISCONNECTED, DISCONNECTED => true
  | _, _ => false
  end.

(** ** Collaborators of the camera object *)

(** [config.capture_source]: a device index or a name / port path. *)
Inductive Source : Type :=
| SrcInt (i : Z)
| SrcStr (s : string).

Definition Source_eqb (a b : Source) : bool :=
  match a, b with
  | SrcInt i, SrcInt j => Z.eqb i j
  | SrcStr s, SrcStr t => String.eqb s t
  | _, _ => false
  end.

(** Python's [==] on optional sources ([None == None]). *)
Definition opt_Source_eqb (a b : option Source) : bool :=
  match a, b with
  | None, None => true
  | Some x, Some y => Source_eqb x y
  | _, _ => false
  end.

(** [str(capture_source)]. *)
Definition py_str (src : option Source) : string :=
  match src with
  | None => "None"
  | Some (SrcInt i) => NilZero.string_of_int (Z.to_int i)
  | Some (SrcStr s) => s
  end.

(** [sub in s] on strings. *)
Fixpoint str_contains (sub s : string) : bool :=
  if String.prefix sub s then true
  else match s with
       | EmptyString => false
       | String _ s' => str_contains sub s'
       end.

Record BabbleConfig : Type := {
  capture_source : option Source;
  use_ffmpeg : bool
}.

Record BabbleSettingsConfig : Type := {
  gui_cam_resolution_x : Z;
  gui_cam_resolution_y : Z;
  gui_cam_framerate : Z
}.

(** A decoded image.  [cv2.resize] is external: its result is kept as the
    term [Resized src width height], of which only the shape is computed. *)
Inductive Image : Type :=
| Frame (shape : list nat) (id : nat)
| Resized (src : Image) (width height : nat).

Fixpoint shape (image : Image) : list nat :=
  match image with
  | Frame sh _ => sh
  | Resized src width height => height :: width :: skipn 2 (shape src)
  end.

Definition nbytes (image : Image) : nat := fold_right Nat.mul 1 (shape image).

(** [np.max(shape)]. *)
Definition np_max (sh : list nat) : nat := fold_right Nat.max 0 sh.

(** A [cv2.VideoCapture] object: what it was opened on, whether the open
    succeeded, the properties set on it and the results of the reads to come
    ([None]: a read that returns [ret = False]). *)
Inductive CapProp : Type :=
  CAP_PROP_FRAME_WIDTH | CAP_PROP_FRAME_HEIGHT | CAP_PROP_FPS | CAP_PROP_POS_FRAMES.

Record VideoCapture : Type := {
  vc_source : option Source;
  vc_ffmpeg : bool;
  vc_isOpened : bool;
  vc_props : list (CapProp * Z);
  vc_pos : Z;
  vc_stream : list (option Image)
}.

Definition vc_set (p : CapProp) (v : Z) (cap : VideoCapture) : VideoCapture :=
  {| vc_source := vc_source cap; vc_ffmpeg := vc_ffmpeg cap;
     vc_isOpened := vc_isOpened cap; vc_props := (p, v) :: vc_props cap;
     vc_pos := match p with CAP_PROP_POS_FRAMES => v | _ => vc_pos cap end;
     vc_stream := vc_stream cap |}.

Definition vc_read (cap : VideoCapture) : option Image * VideoCapture :=
  if vc_isOpened cap then
    match vc_stream cap with
    | Some image :: rest =>
        (Some image,
         {| vc_source := vc_source cap; vc_ffmpeg := vc_ffmpeg cap;
            vc_isOpened := true; vc_props := vc_props cap;
            vc_pos := (vc_pos cap + 1)%Z; vc_stream := rest |})
    | None :: rest =>
        (None,
         {| vc_source := vc_source cap; vc_ffmpeg := vc_ffmpeg cap;
            vc_isOpened := true; vc_props := vc_props cap;
            vc_pos := vc_pos cap; vc_stream := rest |})
    | [] => (None, cap)
    end
  else (None, cap).

(** A [serial.Serial] object: its port, whether it is open and the bytes
    waiting in the driver's input buffer. *)
Record Serial : Type := {
  port : string;
  is_open : bool;
  rx : bytes
}.

Definition ser_close (conn : Serial) : Serial :=
  {| port := port conn; is_open := false; rx := [] |}.

(** The device and the consumer put bytes on the line between two calls. *)
Definition ser_feed (data : bytes) (conn : Serial) : Serial :=
  {| port := port conn; is_open := is_open conn; rx := rx conn ++ data |}.

(** One entry of the output queue: [(image, frame_number, fps)]; the frame
    number is the capture position for a webcam and the wall clock for a
    serial camera. *)
Record QueueItem : Type := {
  q_image : Image;
  q_frame_number : spec_float;
  q_fps : spec_float
}.

(** Calls of interest, logged in a ghost field of the camera so that the
    theorems can speak of what an iteration did. *)
Inductive Call : Type :=
| CallStartSerial (p : string)
| CallSerialOpen (p : string)
| CallSerialClose
| CallVideoOpen (src : option Source) (ffmpeg : bool)
| CallSerialPicture (should_push : bool)
| CallCv2Picture (should_push : bool)
| CallFrameRead
| CallPush.

(** ** The camera object *)

Record Camera : Type := {
  camera_status : CameraState;
  config : BabbleConfig;
  settings : BabbleSettingsConfig;
  camera_list : list string;
  camera_output_outgoing : list QueueItem;
  capture_event : bool;
  current_capture_source : option Source;
  cv2_camera : option VideoCapture;
  serial_connection : option Serial;
  last_frame_time : spec_float;
  fps : spec_float;
  bps : spec_float;
  buffer : bytes;
  sp_max : nat;
  FRAME_SIZE : list nat;
  calls : list Call
}.

(** Field updates ([self.f = v]). *)

Definition set_camera_status (v : CameraState) (self : Camera) : Camera :=
  {| camera_status := v; config := config self; settings := settings self;
     camera_list := camera_list self;
     camera_output_outgoing := camera_output_outgoing self;
     capture_event := capture_event self;
     current_capture_source := current_capture_source self;
     cv2_camera := cv2_camera self;
     serial_connection := serial_connection self;
     last_frame_time := last_frame_time self; fps := fps self;
     bps := bps self; buffer := buffer self; sp_max := sp_max self;
     FRAME_SIZE := FRAME_SIZE self; calls := calls self |}.

Definition set_config (v : BabbleConfig) (self : Camera) : Camera :=
  {| camera_status := camera_status self; config := v;
     settings := settings self; camera_list := camera_list self;
     camera_output_outgoing := camera_output_outgoing self;
     capture_event := capture_event self;
     current_capture_source := current_capture_source self;
     cv2_camera := cv2_camera self;
     serial_connection := serial_connection self;
     last_frame_time := last_frame_time self; fps := fps self;
     bps := bps self; buffer := buffer self; sp_max := sp_max self;
     FRAME_SIZE := FRAME_SIZE self; calls := calls self |}.

Definition set_settings (v : BabbleSettingsConfig) (self : Camera) : Camera :=
  {| camera_status := camera_status self; config := config self;
     settings := v; camera_list := camera_list self;
     camera_output_outgoing := camera_output_outgoing self;
     capture_event := capture_event self;
     current_capture_source := current_capture_source self;
     cv2_camera := cv2_camera self;
     serial_connection := serial_connection self;
     last_frame_time := last_frame_time self; fps := fps self;
     bps := bps self; buffer := buffer self; sp_max := sp_max self;
     FRAME_SIZE := FRAME_SIZE self; calls := calls self |}.

Definition set_camera_output_outgoing (v : list QueueItem) (self : Camera) : Camera :=
  {| camera_status := camera_status self; config := config self;
     settings := settings self; camera_list := camera_list self;
     camera_output_outgoing := v; capture_event := capture_event self;
     current_capture_source := current_capture_source self;
     cv2_camera := cv2_camera self;
     serial_connection := serial_connection self;
     last_frame_time := last_frame_time self; fps := fps self;
     bps := bps self; buffer := buffer self; sp_max := sp_max self;
     FRAME_SIZE := FRAME_SIZE self; calls := calls self |}.

Definition set_capture_event (v : bool) (self : Camera) : Camera :=
  {| camera_status := camera_status self; config := config self;
     settings := settings self; camera_list := camera_list self;
     camera_output_outgoing := camera_output_outgoing self;
     capture_event := v;
     current_capture_source := current_capture_source self;
     cv2_camera := cv2_camera self;
     serial_connection := serial_connection self;
     last_frame_time := last_frame_time self; fps := fps self;
     bps := bps self; buffer := buffer self; sp_max := sp_max self;
     FRAME_SIZE := FRAME_SIZE self; calls := calls self |}.

Definition set_current_capture_source (v : option Source) (self : Camera) : Camera :=
  {| camera_status := camera_status self; config := config self;
     settings := settings self; camera_list := camera_list self;
     camera_output_outgoing := camera_output_outgoing self;
     capture_event := capture_event self; current_capture_source := v;
     cv2_camera := cv2_camera self;
     serial_connection := serial_connection self;
     last_frame_time := last_frame_time self; fps := fps self;
     bps := bps self; buffer := buffer self; sp_max := sp_max self;
     FRAME_SIZE := FRAME_SIZE self; calls := calls self |}.

Definition set_cv2_camera (v : option VideoCapture) (self : Camera) : Camera :=
  {| camera_status := camera_status self; config := config self;
     settings := settings self; camera_list := camera_list self;
     camera_output_outgoing := camera_output_outgoing self;
     capture_event := capture_event self;
     current_capture_source := current_capture_source self; cv2_camera := v;
     serial_connection := serial_connection self;
     last_frame_time := last_frame_time self; fps := fps self;
     bps := bps self; buffer := buffer self; sp_max := sp_max self;
     FRAME_SIZE := FRAME_SIZE self; calls := calls self |}.

Definition set_serial_connection (v : option Serial) (self : Camera) : Camera :=
  {| camera_status := camera_status self; config := config self;
     settings := settings self; camera_list := camera_list self;
     camera_output_outgoing := camera_output_outgoing self;
     capture_event := capture_event self;
     current_capture_source := current_capture_source self;
     cv2_camera := cv2_camera self; serial_connection := v;
     last_frame_time := last_frame_time self; fps := fps self;
     bps := bps self; buffer := buffer self; sp_max := sp_max self;
     FRAME_SIZE := FRAME_SIZE self; calls := calls self |}.

Definition set_last_frame_time (v : spec_float) (self : Camera) : Camera :=
  {| camera_status := camera_status self; config := config self;
     settings := settings self; camera_list := camera_list self;
     camera_output_outgoing := camera_output_outgoing self;
     capture_event := capture_event self;
     current_capture_source := current_capture_source self;
     cv2_camera := cv2_camera self;
     serial_connection := serial_connection self; last_frame_time := v;
     fps := fps self; bps := bps self; buffer := buffer self;
     sp_max := sp_max self; FRAME_SIZE := FRAME_SIZE self;
     calls := calls self |}.

Definition set_fps (v : spec_float) (self : Camera) : Camera :=
  {| camera_status := camera_status self; config := config self;
     settings := settings self; camera_list := camera_list self;
     camera_output_outgoing := camera_output_outgoing self;
     capture_event := capture_event self;
     current_capture_source := current_capture_source self;
     cv2_camera := cv2_camera self;
     serial_connection := serial_connection self;
     last_frame_time := last_frame_time self; fps := v; bps := bps self;
     buffer := buffer self; sp_max := sp_max self;
     FRAME_SIZE := FRAME_SIZE self; calls := calls self |}.

Definition set_bps (v : spec_float) (self : Camera) : Camera :=
  {| camera_status := camera_status self; config := config self;
     settings := settings self; camera_list := camera_list self;
     camera_output_outgoing := camera_output_outgoing self;
     capture_event := capture_event self;
     current_capture_source := current_capture_source self;
     cv2_camera := cv2_camera self;
     serial_connection := serial_connection self;
     last_frame_time := last_frame_time self; fps := fps self; bps := v;
     buffer := buffer self; sp_max := sp_max self;
     FRAME_SIZE := FRAME_SIZE self; calls := calls self |}.

Definition set_buffer (v : bytes) (self : Camera) : Camera :=
  {| camera_status := camera_status self; config := config self;
     settings := settings self; camera_list := camera_list self;
     camera_output_outgoing := camera_output_outgoing self;
     capture_event := capture_event self;
     current_capture_source := current_capture_source self;
     cv2_camera := cv2_camera self;
     serial_connection := serial_connection self;
     last_frame_time := last_frame_time self; fps := fps self;
     bps := bps self; buffer := v; sp_max := sp_max self;
     FRAME_SIZE := FRAME_SIZE self; calls := calls self |}.

Definition set_sp_max (v : nat) (self : Camera) : Camera :=
  {| camera_status := camera_status self; config := config self;
     settings := settings self; camera_list := camera_list self;
     camera_output_outgoing := camera_output_outgoing self;
     capture_event := capture_event self;
     current_capture_source := current_capture_source self;
     cv2_camera := cv2_camera self;
     serial_connection := serial_connection self;
     last_frame_time := last_frame_time self; fps := fps self;
     bps := bps self; buffer := buffer self; sp_max := v;
     FRAME_SIZE := FRAME_SIZE self; calls := calls self |}.

Definition set_FRAME_SIZE (v : list nat) (self : Camera) : Camera :=
  {| camera_status := camera_status self; config := config self;
     settings := settings self; camera_list := camera_list self;
     camera_output_outgoing := camera_output_outgoing self;
     capture_event := capture_event self;
     current_capture_source := current_capture_source self;
     cv2_camera := cv2_camera self;
     serial_connection := serial_connection self;
     last_frame_time := last_frame_time self; fps := fps self;
     bps := bps self; buffer := buffer self; sp_max := sp_max self;
     FRAME_SIZE := v; calls := calls self |}.

Definition set_calls (v : list Call) (self : Camera) : Camera :=
  {| camera_status := camera_status self; config := config self;
     settings := settings self; camera_list := camera_list self;
     camera_output_outgoing := camera_output_outgoing self;
     capture_event := capture_event self;
     current_capture_source := current_capture_source self;
     cv2_camera := cv2_camera self;
     serial_connection := serial_connection self;
     last_frame_time := last_frame_time self; fps := fps self;
     bps := bps self; buffer := buffer self; sp_max := sp_max self;
     FRAME_SIZE := FRAME_SIZE self; calls := v |}.

(** ** The monad of methods: state of the object, and exceptions *)

Inductive Res (A : Type) : Type :=
| Val (a : A)
| Exn.

Arguments Val {A} a.
Arguments Exn {A}.

Definition M (A : Type) : Type := Camera -> Res A * Camera.

Definition ret {A} (a : A) : M A := fun self => (Val a, self).

Definition bind {A B} (m : M A) (k : A -> M B) : M B :=
  fun self =>
    match m self with
    | (Val a, self') => k a self'
    | (Exn, self') => (Exn, self')
    end.

Definition raise {A} : M A := fun self => (Exn, self).

(** [try: m  except Exception: h]. *)
Definition try_except {A} (m h : M A) : M A :=
  fun self =>
    match m self with
    | (Val a, self') => (Val a, self')
    | (Exn, self') => h self'
    end.

Definition gets {A} (f : Camera -> A) : M A := fun self => (Val (f self), self).

Definition modify (f : Camera -> Camera) : M unit := fun self => (Val tt, f self).

Definition when (b : bool) (m : M unit) : M unit := if b then m else ret tt.

Definition log (c : Call) : M unit := fun self => (Val tt, set_calls (calls self ++ [c]) self).

Declare Scope monad_scope.
Delimit Scope monad_scope with monad.
Notation "x <- m ;; k" := (bind m (fun x => k))
  (at level 61, m at next level, right associativity) : monad_scope.
Notation "m ;; k" := (bind m (fun _ => k))
  (at level 61, right associativity) : monad_scope.
Open Scope monad_scope.

(** Access to [self.serial_connection]: an attribute of [None] raises, and
    so does an operation on a closed port. *)
Definition with_conn {A} (f : Serial -> Res A * Serial) : M A :=
  fun self =>
    match serial_connection self with
    | None => (Exn, self)
    | Some conn =>
        let (r, conn') := f conn in (r, set_serial_connection (Some conn') self)
    end.

(** [conn.read(n)]: at most [n] of the waiting bytes (a port opened without
    a timeout waits until [n] bytes have come; the wait is not modelled, and
    the statements below hold whatever is waiting). *)
Definition conn_read (n : nat) : M bytes :=
  with_conn (fun conn =>
    if is_open conn then
      (Val (firstn n (rx conn)),
       {| port := port conn; is_open := true; rx := skipn n (rx conn) |})
    else (Exn, conn)).

(** [conn.in_waiting]. *)
Definition conn_in_waiting : M nat :=
  with_conn (fun conn =>
    if is_open conn then (Val (List.length (rx conn)), conn) else (Exn, conn)).

(** [conn.reset_input_buffer()]. *)
Definition conn_reset_input_buffer : M unit :=
  with_conn (fun conn =>
    if is_open conn then
      (Val tt, {| port := port conn; is_open := true; rx := [] |})
    else (Exn, conn)).

(** [conn.close()]. *)
Definition conn_close : M unit :=
  with_conn (fun conn => (Val tt, ser_close conn)).

(** ** FrameFramer *)

Definition serial_read (rb : nat) : M nat :=
  data <- conn_read rb ;;
  modify (fun self => set_buffer (buffer self ++ data) self) ;;
  gets (fun self => List.length (buffer self)).

(** [buffer_len > (self.sp_max * 2.3)] *)
Definition skip_ahead (buffer_len sp_max : nat) : bool :=
  int_gt_float (Z.of_nat buffer_len) (fmul (float_of_nat sp_max) float_2_3).

(** Lines 207-212: where the header search lands. *)
Definition locate_header (buffer_len sp_max : nat) (buf : bytes) : option nat :=
  if skip_ahead buffer_len sp_max then rfind buf ETVR_HEADER
  else find buf ETVR_HEADER.

(** Line 217: the end offset [end] of the frame that starts the buffer. *)
Definition frame_end (buf : bytes) : nat :=
  int_from_bytes_little (slice 4 ETVR_HEADER_LEN buf) + ETVR_HEADER_LEN + 2.

(** [if end > self.sp_max: self.sp_max = end] *)
Definition update_sp_max (end_ : nat) : M unit :=
  sp <- gets sp_max ;;
  when (sp <? end_) (modify (set_sp_max end_)).

(** [conn] is the camera's own [serial_connection] (the one call site passes
    it), so the port is read through the object.  The result is [None] where
    the source returns [False]. *)
Definition get_next_jpeg_frame : M (option bytes) :=
  buffer_len <- serial_read 2048 ;;
  if ETVR_HEADER_LEN <=? buffer_len then
    sp <- gets sp_max ;;
    buf <- gets buffer ;;
    match locate_header buffer_len sp buf with
    | Some beg =>
        modify (set_buffer (skipn beg buf)) ;;
        buffer_len <- gets (fun self => List.length (buffer self)) ;;
        if ETVR_HEADER_LEN <=? buffer_len then
          buf <- gets buffer ;;
          let end_ := frame_end buf in
          in_waiting <- conn_in_waiting ;;
          buffer_len <- (if end_ <=? in_waiting
                         then n <- conn_in_waiting ;; serial_read n
                         else ret buffer_len) ;;
          buf <- gets buffer ;;
          let accept :=
            update_sp_max end_ ;;
            let jpeg := slice ETVR_HEADER_LEN (end_ - 2) buf in
            modify (set_buffer (skipn (end_ - 2) buf)) ;;
            ret (Some jpeg) in
          if (end_ <=? buffer_len)
             && bytes_eqb (slice (end_ - 4) (end_ - 2) buf) JPEG_EOI then
            if negb (bytes_eqb (slice (end_ - 2) end_ buf) [xff; xa0]) then
              if negb (bytes_eqb (slice (end_ - 2) (end_ - 1) buf)
                         (inverted_low_byte
                            (rohc (slice ETVR_HEADER_LEN (end_ - 2) buf))))
              then
                modify (set_buffer (skipn end_ buf)) ;;
                ret None
              else accept
            else accept
          else
            update_sp_max end_ ;;
            ret None
        else ret None
    | None => ret None
    end
  else ret None.

(** ** What the outside supplies during one iteration of the loop *)

Record World : Type := {
  (** [cancellation_event.is_set()] and [cancellation_event.wait(WAIT_TIME)] *)
  cancellation_is_set : bool;
  cancellation_wait : bool;
  (** [serial.tools.list_ports.comports()], each entry as a tuple *)
  comports : list (list string);
  (** whether [serial.Serial(...)] and [set_buffer_size] succeed on a port,
      and the bytes then waiting on it *)
  serial_opens : string -> bool;
  serial_pending : string -> bytes;
  (** [cv2.VideoCapture(source[, cv2.CAP_FFMPEG])]: whether it opens, and the
      results of the reads to come *)
  video_opens : option Source -> bool -> bool;
  video_stream : option Source -> list (option Image);
  (** [utils.misc_utils.get_camera_index_by_name] *)
  get_camera_index_by_name : string -> option Z;
  (** [cv2.imdecode(...)]: [None] when the bytes do not decode *)
  cv2_imdecode : bytes -> option Image;
  (** [time.time()] *)
  time_time : spec_float
}.

(** [Camera.__init__]. *)
Definition Camera_init (config : BabbleConfig) (settings : BabbleSettingsConfig)
  (camera_list : list string) (now : spec_float) : Camera :=
  {| camera_status := CONNECTING; config := config; settings := settings;
     camera_list := camera_list; camera_output_outgoing := [];
     capture_event := false;
     current_capture_source := capture_source config;
     cv2_camera := None; serial_connection := None;
     last_frame_time := now; fps := S754_zero false; bps := S754_zero false;
     buffer := []; sp_max := 2560; FRAME_SIZE := [0; 0]; calls := [] |}.

(** [Camera.__del__]. *)
Definition del : M unit :=
  conn <- gets serial_connection ;;
  match conn with
  | Some _ => log CallSerialClose ;; conn_close
  | None => ret tt
  end.

(** ** ResolutionNormalizer *)

(** [cv2.resize(image, (width, height))] *)
Definition cv2_resize (image : Image) (width height : Z) : Image :=
  Resized image (Z.to_nat width) (Z.to_nat height).

Definition clamp_max_res (image : Image) : Image :=
  let shape := shape image in
  let max_value := np_max shape in
  if MAX_RESOLUTION <? max_value then
    let scale := fdiv (float_of_nat MAX_RESOLUTION) (float_of_nat max_value) in
    let width := int_of_float (fmul (float_of_nat (nth 1 shape 0)) scale) in
    let height := int_of_float (fmul (float_of_nat (nth 0 shape 0)) scale) in
    cv2_resize image width height
  else image.

(** ** HandoffQueue *)

(** [put] on a full queue blocks until the consumer takes an item; the wait
    is not modelled, the item is appended. *)
Definition push_image_to_queue (image : Image) (frame_number fps : spec_float)
  : M unit :=
  log CallPush ;;
  modify (fun self =>
    set_camera_output_outgoing
      (camera_output_outgoing self
       ++ [{| q_image := clamp_max_res image;
              q_frame_number := frame_number; q_fps := fps |}]) self) ;;
  modify (set_capture_event false).

(** ** RateEstimator *)

Definition float_0_02 : spec_float := S754_finite false 5764607523034235 (-58).
Definition float_0_98 : spec_float := S754_finite false 8827055269646172 (-53).

(** The lines shared by both picture methods: the new [fps] from the time of
    this frame; returns [current_frame_time]. *)
Definition update_fps (w : World) : M spec_float :=
  let current_frame_time := time_time w in
  last <- gets last_frame_time ;;
  let delta_time := fsub current_frame_time last in
  modify (set_last_frame_time current_frame_time) ;;
  let current_fps :=
    if SFltb (S754_zero false) delta_time
    then fdiv (float_of_Z 1) delta_time else S754_zero false in
  old <- gets fps ;;
  modify (set_fps (fadd (fmul float_0_02 current_fps) (fmul float_0_98 old))) ;;
  ret current_frame_time.

(** ** CaptureBackend: webcam *)

Definition get_cv2_camera_picture (w : World) (should_push : bool) : M unit :=
  log (CallCv2Picture should_push) ;;
  try_except
    (cap <- gets cv2_camera ;;
     match cap with
     | None => raise
     | Some cap =>
         let (r, cap') := vc_read cap in
         modify (set_cv2_camera (Some cap')) ;;
         match r with
         | None =>
             modify (set_cv2_camera (Some (vc_set CAP_PROP_POS_FRAMES 0 cap'))) ;;
             raise
         | Some image =>
             log CallFrameRead ;;
             modify (set_FRAME_SIZE (shape image)) ;;
             let frame_number := float_of_Z (vc_pos cap') in
             _ <- update_fps w ;;
             f <- gets fps ;;
             modify (set_bps (fmul (float_of_nat (nbytes image)) f)) ;;
             when should_push (push_image_to_queue image frame_number f)
         end
     end)
    (modify (set_camera_status DISCONNECTED)).

(** ** CaptureBackend: serial *)

Definition get_serial_camera_picture (w : World) (should_push : bool) : M unit :=
  log (CallSerialPicture should_push) ;;
  conn <- gets serial_connection ;;
  st <- gets camera_status ;;
  match conn, st with
  | None, _ | _, DISCONNECTED => ret tt
  | Some _, _ =>
      try_except
        (n <- conn_in_waiting ;;
         if 0 <? n then
           jpeg <- get_next_jpeg_frame ;;
           let hygiene :=
             n' <- conn_in_waiting ;;
             when (BUFFER_SIZE <=? n')
               (conn_reset_input_buffer ;; modify (set_buffer [])) in
           match jpeg with
           | Some ((_ :: _) as jpeg) =>
               log CallFrameRead ;;
               match cv2_imdecode w jpeg with
               | None => ret tt
               | Some image =>
                   current_frame_time <- update_fps w ;;
                   f <- gets fps ;;
                   modify (set_bps (fmul (float_of_nat (List.length jpeg)) f)) ;;
                   when should_push
                     (push_image_to_queue image current_frame_time f) ;;
                   hygiene
               end
           | _ => hygiene
           end
         else ret tt)
        (conn_close ;; modify (set_camera_status DISCONNECTED))
  end.

(** [port in p] for a tuple of strings [p]. *)
Definition port_in (port : option Source) (p : list string) : bool :=
  existsb (fun x => opt_Source_eqb (Some (SrcStr x)) port) p.

Definition start_serial_connection (w : World) (port0 : option Source) : M unit :=
  log (CallStartSerial (py_str port0)) ;;
  conn <- gets serial_connection ;;
  let enumerate_and_open :=
    if negb (existsb (port_in port0) (comports w)) then ret tt
    else
      match port0 with
      | Some (SrcStr p) =>
          log (CallSerialOpen p) ;;
          if serial_opens w p then
            modify (set_serial_connection
                      (Some {| port := p; is_open := true;
                               rx := serial_pending w p |})) ;;
            modify (set_camera_status CONNECTED)
          else modify (set_camera_status DISCONNECTED)
      | _ => modify (set_camera_status DISCONNECTED)
      end in
  match conn with
  | Some c =>
      if is_open c then
        if opt_Source_eqb (Some (SrcStr (port c))) port0 then ret tt
        else log CallSerialClose ;; conn_close ;; enumerate_and_open
      else enumerate_and_open
  | None => enumerate_and_open
  end.

(** ** CaptureStateMachine: one iteration of the loop of [run] *)

Inductive LoopCtl : Type := Continue | Return.

Definition is_None {A} (o : option A) : bool :=
  match o with None => true | Some _ => false end.

(** [src in self.camera_list]: the list holds names. *)
Definition in_camera_list (src : option Source) (l : list string) : bool :=
  existsb (fun x => opt_Source_eqb (Some (SrcStr x)) src) l.

(** Lines 122-127: a name of the camera list is replaced by its index. *)
Definition resolve_capture_source (w : World) (src : option Source)
  (names : list string) : option Source :=
  if negb (in_camera_list src names) then src
  else match src with
       | Some (SrcStr name) => option_map SrcInt (get_camera_index_by_name w name)
       | _ => None
       end.

(** [cv2.VideoCapture(source)] or [cv2.VideoCapture(source, cv2.CAP_FFMPEG)]. *)
Definition cv2_VideoCapture (w : World) (src : option Source) (ffmpeg : bool)
  : VideoCapture :=
  {| vc_source := src; vc_ffmpeg := ffmpeg;
     vc_isOpened := video_opens w src ffmpeg; vc_props := [];
     vc_pos := 0; vc_stream := video_stream w src |}.

(** Lines 138-151: the resolution and frame-rate hints that are not 0. *)
Definition apply_hints (st : BabbleSettingsConfig) (cap : VideoCapture)
  : VideoCapture :=
  let cap1 := if negb (gui_cam_resolution_x st =? 0)%Z
              then vc_set CAP_PROP_FRAME_WIDTH (gui_cam_resolution_x st) cap
              else cap in
  let cap2 := if negb (gui_cam_resolution_y st =? 0)%Z
              then vc_set CAP_PROP_FRAME_HEIGHT (gui_cam_resolution_y st) cap1
              else cap1 in
  if negb (gui_cam_framerate st =? 0)%Z
  then vc_set CAP_PROP_FPS (gui_cam_framerate st) cap2
  else cap2.

(** Lines 122-151: resolve the source, open the capture and apply the hints. *)
Definition open_cv2_camera (w : World) : M unit :=
  src <- gets (fun self => capture_source (config self)) ;;
  names <- gets camera_list ;;
  modify (set_current_capture_source (resolve_capture_source w src names)) ;;
  cur <- gets current_capture_source ;;
  ffmpeg <- gets (fun self => use_ffmpeg (config self)) ;;
  log (CallVideoOpen cur ffmpeg) ;;
  st <- gets settings ;;
  modify (set_cv2_camera (Some (apply_hints st (cv2_VideoCapture w cur ffmpeg)))).

(** Lines 101-105 and 110-115: the tests that send the loop into a
    (re)connection. *)
Definition serial_stale (self : Camera) : bool :=
  is_None (serial_connection self)
  || CameraState_eqb (camera_status self) DISCONNECTED
  || negb (opt_Source_eqb (capture_source (config self))
             (current_capture_source self)).

Definition cv2_stale (self : Camera) : bool :=
  is_None (cv2_camera self)
  || negb (match cv2_camera self with Some c => vc_isOpened c | None => false end)
  || CameraState_eqb (camera_status self) DISCONNECTED
  || negb (opt_Source_eqb (capture_source (config self))
             (current_capture_source self)).

(** Lines 93-157: the connection phase.  [None]: the method returns;
    [Some should_push] otherwise. *)
Definition ensure_connected (w : World) : M (option bool) :=
  src <- gets (fun self => capture_source (config self)) ;;
  if negb (is_None src) && negb (opt_Source_eqb src (Some (SrcStr ""))) then
    if str_contains "COM" (py_str src) then
      stale <- gets serial_stale ;;
      when stale
        (modify (set_current_capture_source src) ;;
         start_serial_connection w src) ;;
      ret (Some true)
    else
      stale <- gets cv2_stale ;;
      if stale then
        if cancellation_wait w then ret None
        else open_cv2_camera w ;; ret (Some false)
      else ret (Some true)
  else
    if cancellation_wait w then
      modify (set_camera_status DISCONNECTED) ;; ret None
    else ret (Some true).

(** One iteration of [while True].  [capture_event.wait(timeout=0.001)]
    returns the flag of the event: a request made during the wait is one the
    consumer made before the iteration ([External] below). *)
Definition run_iter (w : World) : M LoopCtl :=
  if cancellation_is_set w then ret Return
  else
    r <- ensure_connected w ;;
    match r with
    | None => ret Return
    | Some should_push =>
        requested <- gets capture_event ;;
        if should_push && negb requested then ret Continue
        else
          src <- gets (fun self => capture_source (config self)) ;;
          (if negb (is_None src) then
             (if str_contains "COM" (py_str src)
                 || str_contains "/dev/tty" (py_str src)
              then get_serial_camera_picture w should_push
              else del ;; get_cv2_camera_picture w should_push) ;;
             when (negb should_push) (modify (set_camera_status CONNECTED))
           else ret tt) ;;
          ret Continue
    end.

(** What the other threads and the device do between two iterations: the
    shell rewrites the configuration, the consumer requests a frame, bytes
    arrive on the serial line. *)
Record External : Type := {
  ext_config : BabbleConfig;
  ext_settings : BabbleSettingsConfig;
  ext_request : bool;
  ext_line : bytes
}.

Definition external (e : External) (self : Camera) : Camera :=
  set_config (ext_config e)
    (set_settings (ext_settings e)
       (set_capture_event (capture_event self || ext_request e)
          (set_serial_connection
             (option_map (ser_feed (ext_line e)) (serial_connection self))
             self))).

(** [run]: the loop, one [(External, World)] per iteration, until the method
    returns, raises or the supplied iterations are used up. *)
Fixpoint run (ws : list (External * World)) (self : Camera) : Camera :=
  match ws with
  | [] => self
  | (e, w) :: ws' =>
      match run_iter w (external e self) with
      | (Val Continue, self') => run ws' self'
      | (_, self') => self'
      end
  end.

(** ** The net effect of one call of [get_next_jpeg_frame]

    On an open port the call is a function of the accumulator, of [sp_max]
    and of the bytes waiting: [frame_step] gives the result, the new
    accumulator, the new [sp_max] and the bytes left waiting
    ([get_next_jpeg_frame_eq] below proves the two equal). *)

Record FrameOut : Type := {
  fo_result : option bytes;
  fo_buffer : bytes;
  fo_sp_max : nat;
  fo_rx : bytes
}.

Definition frame_step (buf : bytes) (sp : nat) (pending : bytes) : FrameOut :=
  let a := buf ++ firstn 2048 pending in
  let rest := skipn 2048 pending in
  if ETVR_HEADER_LEN <=? List.length a then
    match locate_header (List.length a) sp a with
    | None => {| fo_result := None; fo_buffer := a; fo_sp_max := sp; fo_rx := rest |}
    | Some beg =>
        let b := skipn beg a in
        if ETVR_HEADER_LEN <=? List.length b then
          let e := frame_end b in
          let more := e <=? List.length rest in
          let b2 := if more then b ++ rest else b in
          let rest2 := if more then [] else rest in
          if (e <=? List.length b2) && bytes_eqb (slice (e - 4) (e - 2) b2) JPEG_EOI then
            if negb (bytes_eqb (slice (e - 2) e b2) [xff; xa0])
               && negb (bytes_eqb (slice (e - 2) (e - 1) b2)
                          (inverted_low_byte (rohc (slice ETVR_HEADER_LEN (e - 2) b2))))
            then {| fo_result := None; fo_buffer := skipn e b2; fo_sp_max := sp; fo_rx := rest2 |}
            else {| fo_result := Some (slice ETVR_HEADER_LEN (e - 2) b2);
                    fo_buffer := skipn (e - 2) b2;
                    fo_sp_max := if sp <? e then e else sp; fo_rx := rest2 |}
          else {| fo_result := None; fo_buffer := b2;
                  fo_sp_max := if sp <? e then e else sp; fo_rx := rest2 |}
        else {| fo_result := None; fo_buffer := b; fo_sp_max := sp; fo_rx := rest |}
    end
  else {| fo_result := None; fo_buffer := a; fo_sp_max := sp; fo_rx := rest |}.


(** [sub] occurs in [b] at position [k]. *)
Definition occurs_at (sub b : bytes) (k : nat) : bool := startswith sub (skipn k b).

(** A sequence of calls on one accumulator: before each call the device puts
    [data] on the line; the results are dropped, the camera is kept. *)
Fixpoint pump (line : list bytes) (self : Camera) : Camera :=
  match line with
  | [] => self
  | data :: line' =>
      pump line'
        (snd (get_next_jpeg_frame
                (set_serial_connection
                   (option_map (ser_feed data) (serial_connection self)) self)))
  end.

(** ** Vocabulary of the statements *)

(** The frame that starts at [beg] in the accumulator [a]: header, length
    field [lo hi], [data] of that length ending with the end-of-image marker,
    the two trailer bytes [c1 c2], then [tail]. *)
Definition framed (a : bytes) (beg : nat) (lo hi : byte) (data : bytes)
  (c1 c2 : byte) (tail : bytes) : Prop :=
  skipn beg a = ETVR_HEADER ++ [lo; hi] ++ data ++ [c1; c2] ++ tail /\
  int_from_bytes_little [lo; hi] = List.length data /\
  exists body, data = body ++ JPEG_EOI.

(** The bytes the second read of line 219 appends: all that is waiting after
    the first read, when that is at least [end] bytes. *)
Definition late_bytes (end_ : nat) (pending : bytes) : bytes :=
  if end_ <=? List.length (skipn 2048 pending) then skipn 2048 pending else [].





(** A source that takes the webcam path through the whole iteration: set,
    not empty, and with neither ["COM"] nor ["/dev/tty"] in its string. *)
Definition webcam_source (src : option Source) : Prop :=
  is_None src = false /\
  opt_Source_eqb src (Some (SrcStr "")) = false /\
  str_contains "COM" (py_str src) = false /\
  str_contains "/dev/tty" (py_str src) = false.

(** The state in which [open_cv2_camera] leaves the camera. *)
Definition reopened (w : World) (self : Camera) : Camera :=
  let cur := resolve_capture_source w (capture_source (config self))
               (camera_list self) in
  set_cv2_camera
    (Some (apply_hints (settings self)
             (cv2_VideoCapture w cur (use_ffmpeg (config self)))))
    (set_calls (calls self ++ [CallVideoOpen cur (use_ffmpeg (config self))])
       (set_current_capture_source cur self)).

(** The frame the next [read()] of the camera's capture delivers, if any. *)
Definition next_frame (self : Camera) : option Image :=
  match cv2_camera self with
  | Some cap => fst (vc_read cap)
  | None => None
  end.

(** The serial connection as [__del__] leaves it. *)
Definition closed (self : Camera) : Camera := snd (del self).

(** ** Cameras to run the model on *)

Definition example_settings : BabbleSettingsConfig :=
  {| gui_cam_resolution_x := 0; gui_cam_resolution_y := 0; gui_cam_framerate := 0 |}.

(** A freshly constructed camera configured on [src]. *)
Definition example_camera (src : string) : Camera :=
  Camera_init {| capture_source := Some (SrcStr src); use_ffmpeg := false |}
    example_settings [] (S754_zero false).

(** The same camera with an open serial port on which [pending] waits. *)
Definition serial_camera (pending : bytes) : Camera :=
  set_serial_connection
    (Some {| port := "COM3"; is_open := true; rx := pending |})
    (example_camera "COM3").

(** Byte streams: a 3-byte payload [01 ff d9] behind the header and the
    length field [03 00], then two trailer bytes and two bytes of noise. *)
Definition wire (c1 c2 : byte) : bytes :=
  ETVR_HEADER ++ [x03; x00] ++ [x01; xff; xd9] ++ [c1; c2] ++ [x08; x09].

(** The inverted low byte of the ROHC CRC of [01 ff d9] is [03]. *)
Definition wire_good_checksum : bytes := wire x03 x07.
Definition wire_bad_checksum : bytes := wire x00 x07.
Definition wire_no_checksum : bytes := wire xff xa0.
Definition wire_marker_b : bytes := wire xff xa1.



(** Worlds: a webcam that opens and delivers 640x480 frames; a serial port
    [COM3] that is enumerated, opens and has [wire_good_checksum] waiting,
    with a decoder that accepts what it is given. *)
Definition example_frame (n : nat) : Image := Frame [480; 640; 3] n.

Definition webcam_world : World :=
  {| cancellation_is_set := false; cancellation_wait := false; comports := [];
     serial_opens := fun _ => false; serial_pending := fun _ => [];
     video_opens := fun _ _ => true;
     video_stream := fun _ => [Some (example_frame 1); Some (example_frame 2);
                               Some (example_frame 3)];
     get_camera_index_by_name := fun _ => None;
     cv2_imdecode := fun _ => None; time_time := float_of_Z 1 |}.

Definition serial_world : World :=
  {| cancellation_is_set := false; cancellation_wait := false;
     comports := [["COM3"%string; "USB Serial Device"%string; "USB VID:PID"%string]];
     serial_opens := fun _ => true;
     serial_pending := fun _ => wire_good_checksum;
     video_opens := fun _ _ => false; video_stream := fun _ => [];
     get_camera_index_by_name := fun _ => None;
     cv2_imdecode := fun _ => Some (example_frame 7);
     time_time := float_of_Z 1 |}.

(** The shell leaves the configuration as it is / raises the resolution and
    the frame rate, and the consumer requests a frame or not. *)
Definition same_config (src : string) (request : bool) : External :=
  {| ext_config := {| capture_source := Some (SrcStr src); use_ffmpeg := false |};
     ext_settings := example_settings; ext_request := request; ext_line := [] |}.


(** ** Triples over the monad of methods

    [triple P m Q]: run from a camera that satisfies [P], the method [m]
    leaves one that satisfies [Q], whether it returns or raises. *)

Definition triple {A} (P : Camera -> Prop) (m : M A) (Q : Camera -> Prop) : Prop :=
  forall self, P self -> Q (snd (m self)).

(** The bounds of [sp_max]: its initial value, and the largest end offset a
    16-bit length field can give. *)
Definition sp_max_in_range (self : Camera) : Prop :=
  (2560 <= Z.of_nat (sp_max self) <= 65543)%Z.

(** The request token as a count: 1 when a capture is requested. *)
Definition token (self : Camera) : nat := if capture_event self then 1 else 0.

(** The requests the consumer makes over a run. *)
Definition requests (ws : list (External * World)) : nat :=
  List.length (filter (fun ew => ext_request (fst ew)) ws).

(** The queue holds [q0] followed by items whose image went through
    [clamp_max_res]. *)
Definition grown_from (q0 : list QueueItem) (self : Camera) : Prop :=
  exists new,
    camera_output_outgoing self = q0 ++ new /\
    Forall (fun item => exists image, q_image item = clamp_max_res image) new.

(** Items in the queue and the pending request together are at most [b]. *)
Definition within_budget (b : nat) (self : Camera) : Prop :=
  List.length (camera_output_outgoing self) + token self <= b.

(** A request is pending and pushing one more item stays within [b]. *)
Definition may_push (b : nat) (self : Camera) : Prop :=
  List.length (camera_output_outgoing self) + 1 <= b /\ capture_event self = true.

(** The queue and the request token are as given. *)
Definition queue_is (q : list QueueItem) (e : bool) (self : Camera) : Prop :=
  camera_output_outgoing self = q /\ capture_event self = e.

(** ** Streams of frames *)






(** The accumulator starts with a header whose frame is buffered in full but
    does not end with the end-of-image marker. *)
Definition stalled (self : Camera) : Prop :=
  startswith ETVR_HEADER (buffer self) = true /\
  frame_end (buffer self) <= List.length (buffer self) /\
  slice (frame_end (buffer self) - 4) (frame_end (buffer self) - 2) (buffer self)
  <> JPEG_EOI.

(** The method returns: it does not raise. *)
Definition no_raise {A} (m : M A) : Prop := forall self, fst (m self) <> Exn.

(** A connected webcam, with a request pending, whose next read fails. *)
Definition failing_webcam : Camera :=
  set_cv2_camera
    (Some {| vc_source := Some (SrcStr "0"); vc_ffmpeg := false;
             vc_isOpened := true; vc_props := []; vc_pos := 5;
             vc_stream := [None] |})
    (set_capture_event true (set_camera_status CONNECTED (example_camera "0"))).

(** A source is configured and its connection is up to date: the loop has
    nothing to (re)open. *)
Definition settled (self : Camera) : Prop :=
  is_None (capture_source (config self)) = false /\
  opt_Source_eqb (capture_source (config self)) (Some (SrcStr "")) = false /\
  if str_contains "COM" (py_str (capture_source (config self)))
  then serial_stale self = false
  else cv2_stale self = false.

(** What the other threads and the device do over a run, without the
    camera. *)
Definition others_only (ws : list (External * World)) (self : Camera) : Camera :=
  fold_left (fun s ew => external (fst ew) s) ws self.

(** [int(m * (MAX_RESOLUTION / m))] is 599 or 600: the side of the clamped
    image that was the longest. *)
Definition long_side_ok (m : Z) : bool :=
  let x := int_of_float
             (fmul (float_of_Z m)
                (fdiv (float_of_nat MAX_RESOLUTION) (float_of_Z m))) in
  ((x =? 599) || (x =? 600))%Z.

Fixpoint long_side_ok_upto (m : Z) (n : nat) : bool :=
  match n with
  | O => true
  | S n' => long_side_ok m && long_side_ok_upto (m + 1) n'
  end.

(** ** Tables for the checksum: the 256 values of a byte *)

Definition byte_values : list N := map N.of_nat (seq 0 256).

(** On byte values: the eight shifts of [rohc_byte] stay in range and are
    one to one, exclusive or stays in range, and so does the inverted low
    byte, one to one as well. *)
Definition rohc_tables_ok : bool :=
  forallb (fun a =>
    (Nat.iter 8 rohc_shift a <? 256)%N &&
    forallb (fun b =>
      (N.lxor a b <? 256)%N &&
      implb (Nat.iter 8 rohc_shift a =? Nat.iter 8 rohc_shift b)%N (a =? b)%N &&
      implb (bytes_eqb (inverted_low_byte a) (inverted_low_byte b)) (a =? b)%N)
      byte_values)
    byte_values.

(** * Properties *)

(** ** Byte strings *)

Lemma bytes_eqb_eq a b : bytes_eqb a b = true <-> a = b.
Proof.
  revert b. induction a as [|x a IH]; destruct b as [|y b]; cbn; try (split; congruence).
  rewrite andb_true_iff, IH. split.
  - intros [H ->]. apply Byte.byte_dec_bl in H. now subst.
  - intros [= -> ->]. split; [apply Byte.byte_dec_lb|]; reflexivity.
Qed.

Lemma bytes_eqb_refl a : bytes_eqb a a = true.
Proof. now apply bytes_eqb_eq. Qed.

Lemma bytes_eqb_neq a b : bytes_eqb a b = false <-> a <> b.
Proof.
  rewrite <- bytes_eqb_eq. destruct (bytes_eqb a b); split; congruence.
Qed.

Lemma startswith_iff sub b : startswith sub b = true <-> exists r, b = sub ++ r.
Proof.
  revert b. induction sub as [|x sub IH]; intros b; cbn.
  - split; eauto.
  - destruct b as [|y b].
    + split; [discriminate|]. intros [r H]. discriminate.
    + rewrite andb_true_iff, IH. split.
      * intros [H [r ->]]. apply Byte.byte_dec_bl in H. subst. eauto.
      * intros [r [= -> ->]]. split; [now apply Byte.byte_dec_lb|eauto].
Qed.

Lemma startswith_app sub r : startswith sub (sub ++ r) = true.
Proof. apply startswith_iff. eauto. Qed.


Lemma occurs_at_S sub x b k : occurs_at sub (x :: b) (S k) = occurs_at sub b k.
Proof. reflexivity. Qed.

Lemma find_from_spec sub : forall b i j,
  find_from i b sub = Some j ->
  exists k, j = i + k /\ k <= List.length b /\ occurs_at sub b k = true /\
            forall k', k' < k -> occurs_at sub b k' = false.
Proof.
  induction b as [|x b IH]; intros i j; cbn [find_from].
  - destruct (startswith sub []) eqn:E; [|discriminate]. intros [= <-].
    exists 0. split; [lia|]. split; [cbn; lia|]. split; [exact E|].
    intros k' Hk. lia.
  - destruct (startswith sub (x :: b)) eqn:E.
    + intros [= <-]. exists 0. split; [lia|]. split; [cbn; lia|]. split; [exact E|].
      intros k' Hk; lia.
    + intros H. destruct (IH _ _ H) as (k & -> & Hl & Hk & Hmin).
      exists (S k). split; [lia|]. split; [cbn; lia|]. split; [exact Hk|].
      intros [|k'] Hk'; [exact E|]. rewrite occurs_at_S. apply Hmin. lia.
Qed.

Lemma find_from_None sub : forall b i,
  find_from i b sub = None -> forall k, k <= List.length b -> occurs_at sub b k = false.
Proof.
  induction b as [|x b IH]; intros i; cbn [find_from].
  - destruct (startswith sub []) eqn:E; [discriminate|]. intros _ k Hk.
    cbn in Hk. assert (k = 0) by lia. subst. exact E.
  - destruct (startswith sub (x :: b)) eqn:E; [discriminate|].
    intros H [|k] Hk; [exact E|]. rewrite occurs_at_S. apply (IH _ H). cbn in Hk; lia.
Qed.

Lemma rfind_from_None sub : forall b i,
  rfind_from i b sub = None -> forall k, k <= List.length b -> occurs_at sub b k = false.
Proof.
  induction b as [|x b IH]; intros i; cbn [rfind_from].
  - destruct (startswith sub []) eqn:E; [discriminate|]. intros _ k Hk.
    cbn in Hk. assert (k = 0) by lia. subst. exact E.
  - destruct (rfind_from (S i) b sub) eqn:R; [discriminate|].
    destruct (startswith sub (x :: b)) eqn:E; [discriminate|].
    intros _ [|k] Hk; [exact E|]. rewrite occurs_at_S. apply (IH _ R). cbn in Hk; lia.
Qed.

Lemma rfind_from_spec sub : forall b i j,
  rfind_from i b sub = Some j ->
  exists k, j = i + k /\ k <= List.length b /\ occurs_at sub b k = true /\
            forall k', k < k' -> k' <= List.length b -> occurs_at sub b k' = false.
Proof.
  induction b as [|x b IH]; intros i j; cbn [rfind_from].
  - destruct (startswith sub []) eqn:E; [|discriminate]. intros [= <-].
    exists 0. split; [lia|]. split; [cbn; lia|]. split; [exact E|].
    intros k' Hk Hl. cbn in Hl. lia.
  - destruct (rfind_from (S i) b sub) as [j'|] eqn:R.
    + intros [= <-]. destruct (IH _ _ R) as (k & -> & Hl & Hk & Hmax).
      exists (S k). split; [lia|]. split; [cbn; lia|]. split; [exact Hk|].
      intros [|k'] Hk' Hl'; [lia|]. rewrite occurs_at_S.
      apply Hmax; [lia|cbn in Hl'; lia].
    + destruct (startswith sub (x :: b)) eqn:E; [|discriminate]. intros [= <-].
      exists 0. split; [lia|]. split; [cbn; lia|]. split; [exact E|].
      intros [|k'] Hk' Hl'; [lia|]. rewrite occurs_at_S.
      apply (rfind_from_None _ _ _ R). cbn in Hl'; lia.
Qed.

Lemma find_spec b sub beg :
  find b sub = Some beg ->
  beg <= List.length b /\ occurs_at sub b beg = true /\
  forall k, k < beg -> occurs_at sub b k = false.
Proof.
  intros H. destruct (find_from_spec _ _ _ _ H) as (k & -> & ? & ? & ?). auto.
Qed.

Lemma rfind_spec b sub beg :
  rfind b sub = Some beg ->
  beg <= List.length b /\ occurs_at sub b beg = true /\
  forall k, beg < k -> k <= List.length b -> occurs_at sub b k = false.
Proof.
  intros H. destruct (rfind_from_spec _ _ _ _ H) as (k & -> & ? & ? & ?). auto.
Qed.

Lemma find_None b sub :
  find b sub = None -> forall k, k <= List.length b -> occurs_at sub b k = false.
Proof. apply find_from_None. Qed.



(** The header at the front and nowhere else: both searches land on 0. *)
Lemma find_front b sub : startswith sub b = true -> find b sub = Some 0.
Proof. intros H. unfold find. destruct b; cbn [find_from]; rewrite H; reflexivity. Qed.


(** ** The monad and the framer *)

Ltac mred :=
  cbn [serial_connection is_open rx port buffer sp_max camera_status calls
       config settings camera_list camera_output_outgoing capture_event
       current_capture_source cv2_camera last_frame_time fps bps FRAME_SIZE
       set_buffer set_serial_connection set_sp_max set_camera_status
       set_calls set_config set_settings set_camera_output_outgoing
       set_capture_event set_current_capture_source set_cv2_camera
       set_last_frame_time set_fps set_bps set_FRAME_SIZE
       andb orb negb fst snd].

Lemma get_next_jpeg_frame_eq (self : Camera) (conn : Serial) :
  serial_connection self = Some conn -> is_open conn = true ->
  get_next_jpeg_frame self =
  let o := frame_step (buffer self) (sp_max self) (rx conn) in
  (Val (fo_result o),
   set_sp_max (fo_sp_max o)
     (set_buffer (fo_buffer o)
        (set_serial_connection
           (Some {| port := port conn; is_open := true; rx := fo_rx o |}) self))).
Proof.
  intros Hc Ho. destruct self; cbn [serial_connection] in Hc; subst.
  destruct conn as [p o r]; cbn [is_open] in Ho; subst.
  unfold get_next_jpeg_frame, frame_step.
  generalize 2048 as rb. intros rb.
  unfold serial_read, conn_read, conn_in_waiting, with_conn,
    update_sp_max, when, bind, gets, modify, ret.
  mred.
  destruct (ETVR_HEADER_LEN <=? _) eqn:E1; [|reflexivity].
  mred.
  destruct (locate_header _ _ _) as [beg|] eqn:E2; [|reflexivity].
  mred.
  destruct (ETVR_HEADER_LEN <=? Datatypes.length (skipn beg _)) eqn:E3; [|reflexivity].
  mred.
  destruct (frame_end _ <=? Datatypes.length (skipn rb r)) eqn:E4;
  mred.
  - rewrite firstn_all, skipn_all.
    destruct (_ && _) eqn:E5.
    + destruct (negb _) eqn:E6.
      * destruct (negb (bytes_eqb (slice _ (_ - 1) _) _)) eqn:E7.
        -- reflexivity.
        -- mred; destruct (sp_max0 <? _); reflexivity.
      * mred; destruct (sp_max0 <? _); reflexivity.
    + mred; destruct (sp_max0 <? _); reflexivity.
  - destruct (_ && _) eqn:E5.
    + destruct (negb _) eqn:E6.
      * destruct (negb (bytes_eqb (slice _ (_ - 1) _) _)) eqn:E7.
        -- reflexivity.
        -- mred; destruct (sp_max0 <? _); reflexivity.
      * mred; destruct (sp_max0 <? _); reflexivity.
    + mred; destruct (sp_max0 <? _); reflexivity.
Qed.

Lemma slice_mid (p m s : bytes) i j :
  i = List.length p -> j = List.length p + List.length m ->
  slice i j (p ++ m ++ s) = m.
Proof.
  intros -> ->. unfold slice.
  rewrite skipn_app, skipn_all, Nat.sub_diag. cbn [app skipn].
  replace (List.length p + List.length m - List.length p) with (List.length m + 0) by lia.
  rewrite firstn_app_2. cbn. apply app_nil_r.
Qed.

Lemma skipn_mid (p s : bytes) i : i = List.length p -> skipn i (p ++ s) = s.
Proof.
  intros ->. rewrite skipn_app, skipn_all, Nat.sub_diag. reflexivity.
Qed.

Lemma frame_end_layout lo hi tl :
  frame_end (ETVR_HEADER ++ [lo; hi] ++ tl) = int_from_bytes_little [lo; hi] + 8.
Proof. unfold frame_end, ETVR_HEADER_LEN. cbn [slice skipn firstn app ETVR_HEADER Nat.sub]. lia. Qed.

Lemma int_from_bytes_little_2 lo hi :
  int_from_bytes_little [lo; hi] = N.to_nat (Byte.to_N lo) + 256 * N.to_nat (Byte.to_N hi).
Proof. cbn [int_from_bytes_little]. lia. Qed.

(** A buffer that starts with the header and holds the length field. *)
Lemma header_layout b :
  startswith ETVR_HEADER b = true -> ETVR_HEADER_LEN <= List.length b ->
  exists lo hi tl, b = ETVR_HEADER ++ [lo; hi] ++ tl.
Proof.
  intros H Hl. apply startswith_iff in H. destruct H as [r ->].
  unfold ETVR_HEADER_LEN in Hl. rewrite length_app in Hl. cbn in Hl.
  destruct r as [|lo [|hi tl]]; cbn in Hl; try lia. now exists lo, hi, tl.
Qed.

(** What the acceptance test of line 220 means for a buffer that starts with
    a header: the length field counts at least the two bytes of the
    terminator, and the [n] bytes after the header end with it. *)
Lemma terminator_layout lo hi tl :
  let n := int_from_bytes_little [lo; hi] in
  let b := ETVR_HEADER ++ [lo; hi] ++ tl in
  n + 8 <= List.length b ->
  slice (n + 8 - 4) (n + 8 - 2) b = JPEG_EOI ->
  exists body c1 c2 rest,
    tl = (body ++ JPEG_EOI) ++ [c1; c2] ++ rest /\ List.length (body ++ JPEG_EOI) = n.
Proof.
  intros n b Hl He.
  assert (Hn : 2 <= n).
  { destruct n as [|[|n']] eqn:En; [| |lia].
    - exfalso. cbn in He. injection He as -> ->. subst n.
      rewrite int_from_bytes_little_2 in En. cbn in En. lia.
    - exfalso. destruct tl as [|t0 tl]; cbn in He; [discriminate|].
      injection He as -> ->. subst n.
      rewrite int_from_bytes_little_2 in En. cbn in En. lia. }
  subst b. rewrite length_app, length_app in Hl. cbn [List.length ETVR_HEADER] in Hl. clearbody n.
  assert (Htl : n + 2 <= List.length tl) by lia.
  rewrite <- (firstn_skipn (n - 2) tl) in He |- *.
  set (body := firstn (n - 2) tl) in *.
  assert (Hb : List.length body = n - 2) by (subst body; rewrite length_firstn; lia).
  set (r := skipn (n - 2) tl) in *.
  assert (Hr : 4 <= List.length r) by (subst r; rewrite length_skipn; lia).
  destruct r as [|e1 [|e2 [|c1 [|c2 rest]]]]; cbn in Hr; try lia.
  change (ETVR_HEADER ++ [lo; hi] ++ body ++ e1 :: e2 :: c1 :: c2 :: rest)
    with ((ETVR_HEADER ++ [lo; hi]) ++ body ++ e1 :: e2 :: c1 :: c2 :: rest) in He.
  rewrite app_assoc in He.
  change (e1 :: e2 :: c1 :: c2 :: rest) with ([e1; e2] ++ c1 :: c2 :: rest) in He.
  rewrite slice_mid in He.
  - exists body, c1, c2, rest. rewrite <- He. split.
    + rewrite <- app_assoc. reflexivity.
    + rewrite length_app. cbn. lia.
  - rewrite length_app. cbn. lia.
  - rewrite length_app. cbn. lia.
Qed.

Lemma skipn_length_le (b : bytes) k : List.length (skipn k b) <= List.length b.
Proof. rewrite length_skipn. lia. Qed.

(** The frame the search lands on is complete and terminated: the call
    accepts or rejects it on its two trailer bytes alone. *)
Lemma frame_step_located buf sp pending beg lo hi data c1 c2 tail :
  locate_header (List.length (buf ++ firstn 2048 pending)) sp
    (buf ++ firstn 2048 pending) = Some beg ->
  skipn beg (buf ++ firstn 2048 pending)
  = ETVR_HEADER ++ [lo; hi] ++ data ++ [c1; c2] ++ tail ->
  int_from_bytes_little [lo; hi] = List.length data ->
  (exists body, data = body ++ JPEG_EOI) ->
  let e := List.length data + 8 in
  let more := e <=? List.length (skipn 2048 pending) in
  let late := if more then skipn 2048 pending else [] in
  let rest2 := if more then [] else skipn 2048 pending in
  frame_step buf sp pending =
  if negb (bytes_eqb [c1; c2] [xff; xa0])
     && negb (bytes_eqb [c1] (inverted_low_byte (rohc data)))
  then {| fo_result := None; fo_buffer := tail ++ late;
          fo_sp_max := sp; fo_rx := rest2 |}
  else {| fo_result := Some data; fo_buffer := [c1; c2] ++ tail ++ late;
          fo_sp_max := (if sp <? e then e else sp); fo_rx := rest2 |}.
Proof.
  cbv zeta. unfold frame_step. generalize 2048 as rb. intros rb.
  set (a := buf ++ firstn rb pending). set (rest := skipn rb pending).
  intros Hloc Hlay Hlen [body Hbody].
  set (e := List.length data + 8). set (more := e <=? List.length rest).
  set (late := if more then rest else []). set (rest2 := if more then [] else rest).
  assert (Hb : List.length (skipn beg a) = List.length data + 8 + List.length tail).
  { rewrite Hlay. rewrite !length_app. cbn. lia. }
  pose proof (skipn_length_le a beg) as Ha.
  replace (ETVR_HEADER_LEN <=? List.length a) with true
    by (symmetry; apply Nat.leb_le; unfold ETVR_HEADER_LEN; lia).
  rewrite Hloc.
  replace (ETVR_HEADER_LEN <=? List.length (skipn beg a)) with true
    by (symmetry; apply Nat.leb_le; unfold ETVR_HEADER_LEN; lia).
  assert (He : frame_end (skipn beg a) = e).
  { rewrite Hlay, frame_end_layout, Hlen. reflexivity. }
  rewrite He. fold more.
  assert (Hb2 : (if more then skipn beg a ++ rest else skipn beg a)
                = (ETVR_HEADER ++ [lo; hi] ++ body) ++ JPEG_EOI ++ [c1; c2] ++ tail ++ late).
  { subst late. rewrite Hlay, Hbody. destruct more.
    - rewrite <- !app_assoc. reflexivity.
    - rewrite <- !app_assoc, app_nil_r. reflexivity. }
  rewrite Hb2.
  assert (Hp : List.length (ETVR_HEADER ++ [lo; hi] ++ body) = e - 4).
  { subst e. rewrite Hbody, !length_app. cbn. lia. }
  assert (He4 : 4 <= e) by (subst e; lia).
  replace (e <=? _) with true
    by (symmetry; apply Nat.leb_le; rewrite length_app, Hp, !length_app; cbn; lia).
  rewrite slice_mid by (cbn [List.length JPEG_EOI]; lia).
  rewrite bytes_eqb_refl. cbn [andb].
  replace ((ETVR_HEADER ++ [lo; hi] ++ body) ++ JPEG_EOI ++ [c1; c2] ++ tail ++ late)
    with (((ETVR_HEADER ++ [lo; hi] ++ body) ++ JPEG_EOI) ++ [c1; c2] ++ tail ++ late)
    by (rewrite <- !app_assoc; reflexivity).
  assert (Hp2 : List.length ((ETVR_HEADER ++ [lo; hi] ++ body) ++ JPEG_EOI) = e - 2).
  { rewrite length_app, Hp. cbn. lia. }
  rewrite (slice_mid _ [c1; c2]) by (cbn [List.length]; lia).
  rewrite (skipn_mid _ _ (e - 2)) by lia.
  replace (slice (e - 2) (e - 1) _) with [c1].
  2:{ symmetry. change ([c1; c2] ++ tail ++ late) with ([c1] ++ (c2 :: tail ++ late)).
      apply slice_mid; cbn [List.length]; lia. }
  replace (slice ETVR_HEADER_LEN (e - 2) _) with data.
  2:{ symmetry. rewrite Hbody.
      replace (((ETVR_HEADER ++ [lo; hi] ++ body) ++ JPEG_EOI) ++ [c1; c2] ++ tail ++ late)
        with ((ETVR_HEADER ++ [lo; hi]) ++ (body ++ JPEG_EOI) ++ [c1; c2] ++ tail ++ late)
        by (rewrite <- !app_assoc; reflexivity).
      apply slice_mid; [reflexivity|]. rewrite <- Hbody. subst e. cbn. lia. }
  replace (skipn e _) with (tail ++ late).
  2:{ symmetry. rewrite (app_assoc _ [c1; c2]). apply skipn_mid.
      rewrite length_app, Hp2. cbn. lia. }
  destruct (negb (bytes_eqb [c1; c2] _)); cbn [andb]; [|reflexivity].
  destruct (negb (bytes_eqb [c1] _)); reflexivity.
Qed.

Lemma locate_header_occurs n sp a beg :
  locate_header n sp a = Some beg -> startswith ETVR_HEADER (skipn beg a) = true.
Proof.
  unfold locate_header. destruct (skip_ahead n sp); intros H.
  - apply rfind_spec in H. apply H.
  - apply find_spec in H. apply H.
Qed.

(** Every payload returned sits behind a header, has the length the length
    field announces and ends with the JPEG end-of-image marker. *)
Lemma frame_step_Some buf sp pending jpeg :
  fo_result (frame_step buf sp pending) = Some jpeg ->
  exists pre lo hi body rest,
    buf ++ pending = pre ++ ETVR_HEADER ++ [lo; hi] ++ jpeg ++ rest /\
    List.length jpeg = int_from_bytes_little [lo; hi] /\
    jpeg = body ++ JPEG_EOI.
Proof.
  unfold frame_step. generalize 2048 as rb. intros rb.
  assert (Hall : buf ++ pending = (buf ++ firstn rb pending) ++ skipn rb pending).
  { rewrite <- app_assoc, firstn_skipn. reflexivity. }
  rewrite Hall. clear Hall.
  set (a := buf ++ firstn rb pending). set (rest := skipn rb pending).
  destruct (ETVR_HEADER_LEN <=? List.length a); [|discriminate].
  destruct (locate_header _ _ _) as [beg|] eqn:Hloc; [|discriminate].
  destruct (ETVR_HEADER_LEN <=? List.length (skipn beg a)) eqn:H6; [|discriminate].
  apply Nat.leb_le in H6. apply locate_header_occurs in Hloc.
  destruct (header_layout _ Hloc H6) as (lo & hi & tl & Hb).
  rewrite Hb, frame_end_layout.
  set (n := int_from_bytes_little [lo; hi]).
  set (more := n + 8 <=? List.length rest).
  set (late := if more then rest else []).
  assert (Hb2 : (if more then (ETVR_HEADER ++ [lo; hi] ++ tl) ++ rest
                 else ETVR_HEADER ++ [lo; hi] ++ tl)
                = ETVR_HEADER ++ [lo; hi] ++ tl ++ late).
  { subst late. destruct more; [|rewrite app_nil_r; reflexivity].
    rewrite <- !app_assoc. reflexivity. }
  rewrite Hb2. clear Hb2.
  destruct (_ && _) eqn:Hacc; [|discriminate].
  apply andb_true_iff in Hacc. destruct Hacc as [Hl He].
  apply Nat.leb_le in Hl. apply bytes_eqb_eq in He.
  destruct (terminator_layout lo hi (tl ++ late) Hl He) as (body & c1 & c2 & r & Htl & Hn).
  fold n in Hn. rewrite Htl.
  assert (Hj : slice ETVR_HEADER_LEN (n + 8 - 2)
                 (ETVR_HEADER ++ [lo; hi] ++ (body ++ JPEG_EOI) ++ [c1; c2] ++ r)
               = body ++ JPEG_EOI).
  { change (ETVR_HEADER ++ [lo; hi] ++ (body ++ JPEG_EOI) ++ [c1; c2] ++ r)
      with ((ETVR_HEADER ++ [lo; hi]) ++ (body ++ JPEG_EOI) ++ [c1; c2] ++ r).
    apply slice_mid; [reflexivity|]. rewrite Hn. cbn. lia. }
  rewrite Hj.
  intros H.
  assert (Hjpeg : jpeg = body ++ JPEG_EOI).
  { destruct (negb _); [destruct (negb _)|]; cbn in H; congruence. }
  clear H. subst jpeg.
  exists (firstn beg a), lo, hi, body.
  exists ([c1; c2] ++ r ++ (if more then [] else rest)).
  split; [|split; [exact Hn|reflexivity]].
  assert (Hsplit : tl ++ rest = ((body ++ JPEG_EOI) ++ [c1; c2] ++ r) ++ (if more then [] else rest)).
  { rewrite <- Htl. subst late. destruct more; [rewrite app_nil_r|rewrite <- app_assoc, app_nil_l]; reflexivity. }
  rewrite <- (firstn_skipn beg a) at 1. rewrite Hb.
  rewrite <- !app_assoc. do 2 f_equal. cbn [app]. do 2 f_equal.
  rewrite Hsplit, <- !app_assoc. reflexivity.
Qed.

(** Without an open port the call raises and leaves the camera as it is. *)
Lemma get_next_jpeg_frame_no_port self :
  match serial_connection self with
  | Some conn => is_open conn = false
  | None => True
  end ->
  get_next_jpeg_frame self = (Exn, self).
Proof.
  unfold get_next_jpeg_frame, serial_read, conn_read, with_conn, bind.
  generalize 2048. intros rb.
  destruct self as [? ? ? ? ? ? ? ? [[p o r]|] ? ? ? ? ? ? ?]; cbn [serial_connection is_open].
  - intros ->. reflexivity.
  - reflexivity.
Qed.

Lemma frame_step_sp_max buf sp pending :
  let a := buf ++ firstn 2048 pending in
  let o := frame_step buf sp pending in
  fo_sp_max o = sp \/
  exists beg, locate_header (List.length a) sp a = Some beg /\
              fo_sp_max o = frame_end (skipn beg a) /\ sp < fo_sp_max o.
Proof.
  cbv zeta. unfold frame_step. generalize 2048 as rb. intros rb.
  set (a := buf ++ firstn rb pending).
  destruct (ETVR_HEADER_LEN <=? _); [|now left].
  destruct (locate_header _ _ _) as [beg|]; [|now left].
  destruct (ETVR_HEADER_LEN <=? _); [|now left].
  set (e := frame_end (skipn beg a)).
  assert (Hmax : (if sp <? e then e else sp) = sp \/
                 exists beg0, Some beg = Some beg0 /\
                   (if sp <? e then e else sp) = frame_end (skipn beg0 a) /\
                   sp < (if sp <? e then e else sp)).
  { destruct (sp <? e) eqn:E; [right|now left].
    apply Nat.ltb_lt in E. exists beg. auto. }
  destruct (_ && _); [|exact Hmax].
  destruct (negb _); cbn [andb]; [|exact Hmax].
  destruct (negb _); [now left|exact Hmax].
Qed.

Lemma frame_step_incomplete buf sp pending beg :
  let a := buf ++ firstn 2048 pending in
  locate_header (List.length a) sp a = Some beg ->
  ETVR_HEADER_LEN <= List.length (skipn beg a) ->
  let e := frame_end (skipn beg a) in
  List.length (skipn beg a) < e ->
  List.length (skipn 2048 pending) < e ->
  frame_step buf sp pending =
  {| fo_result := None; fo_buffer := skipn beg a;
     fo_sp_max := Nat.max sp e; fo_rx := skipn 2048 pending |}.
Proof.
  cbv zeta. unfold frame_step. generalize 2048 as rb. intros rb.
  set (a := buf ++ firstn rb pending).
  intros Hloc H6 Hb Hr.
  pose proof (skipn_length_le a beg) as Ha.
  replace (ETVR_HEADER_LEN <=? List.length a) with true
    by (symmetry; apply Nat.leb_le; lia).
  rewrite Hloc.
  replace (ETVR_HEADER_LEN <=? List.length (skipn beg a)) with true
    by (symmetry; apply Nat.leb_le; lia).
  set (e := frame_end (skipn beg a)) in *.
  replace (e <=? List.length (skipn rb pending)) with false
    by (symmetry; apply Nat.leb_gt; lia).
  replace (e <=? List.length (skipn beg a)) with false
    by (symmetry; apply Nat.leb_gt; lia).
  cbn [andb]. f_equal.
  destruct (sp <? e) eqn:E; [apply Nat.ltb_lt in E|apply Nat.ltb_ge in E]; lia.
Qed.

(** ** The skip-ahead threshold in integers *)




(** The fields a call of the framer leaves alone. *)
Lemma get_next_jpeg_frame_fields self conn :
  serial_connection self = Some conn -> is_open conn = true ->
  let o := frame_step (buffer self) (sp_max self) (rx conn) in
  let self' := snd (get_next_jpeg_frame self) in
  fst (get_next_jpeg_frame self) = Val (fo_result o) /\
  buffer self' = fo_buffer o /\
  sp_max self' = fo_sp_max o /\
  serial_connection self'
  = Some {| port := port conn; is_open := true; rx := fo_rx o |} /\
  camera_status self' = camera_status self /\
  camera_output_outgoing self' = camera_output_outgoing self /\
  calls self' = calls self.
Proof.
  intros Hc Ho. cbv zeta. rewrite (get_next_jpeg_frame_eq self conn Hc Ho).
  cbv zeta. cbn [fst snd]. destruct self. mred. repeat split.
Qed.

(** ** C2 *)

(** C2 (safety of the framer).  Whatever the accumulator holds and whatever
    has arrived on the line, a call of [get_next_jpeg_frame] that returns a
    payload took it from a region of the bytes (accumulator followed by the
    bytes waiting) that begins with the 4-byte magic header; the payload has
    exactly the length the little-endian length field announces, and the two
    bytes at the terminator position computed from that field (the last two
    of the payload) are the JPEG end-of-image marker [ff d9]. *)
Theorem C2_valid_frames_only (self self' : Camera) (jpeg : bytes) :
  get_next_jpeg_frame self = (Val (Some jpeg), self') ->
  exists conn pre lo hi body rest,
    serial_connection self = Some conn /\
    buffer self ++ rx conn = pre ++ ETVR_HEADER ++ [lo; hi] ++ jpeg ++ rest /\
    List.length jpeg = int_from_bytes_little [lo; hi] /\
    jpeg = body ++ JPEG_EOI.
Proof.
  intros H.
  destruct (serial_connection self) as [conn|] eqn:Hc.
  2:{ rewrite get_next_jpeg_frame_no_port in H by (rewrite Hc; exact I). discriminate. }
  destruct (is_open conn) eqn:Ho.
  2:{ rewrite get_next_jpeg_frame_no_port in H by (rewrite Hc; exact Ho). discriminate. }
  destruct (get_next_jpeg_frame_fields self conn Hc Ho) as (Hr & _).
  rewrite H in Hr. cbn [fst] in Hr. injection Hr as Hr. symmetry in Hr.
  destruct (frame_step_Some _ _ _ _ Hr) as (pre & lo & hi & body & rest & H1 & H2 & H3).
  exists conn, pre, lo, hi, body, rest. auto.
Qed.

Lemma C2_valid_frames_only_witness :
  exists conn pre lo hi body rest,
    serial_connection
      (serial_camera [x00; xff; xa0; xff; xa1; x03; x00; x01; xff; xd9; xff; xa0])
    = Some conn /\
    buffer (serial_camera [x00; xff; xa0; xff; xa1; x03; x00; x01; xff; xd9; xff; xa0])
    ++ rx conn = pre ++ ETVR_HEADER ++ [lo; hi] ++ [x01; xff; xd9] ++ rest /\
    List.length [x01; xff; xd9] = int_from_bytes_little [lo; hi] /\
    [x01; xff; xd9] = body ++ JPEG_EOI.
Proof.
  apply (C2_valid_frames_only
           (serial_camera [x00; xff; xa0; xff; xa1; x03; x00; x01; xff; xd9; xff; xa0])
           (snd (get_next_jpeg_frame
                   (serial_camera
                      [x00; xff; xa0; xff; xa1; x03; x00; x01; xff; xd9; xff; xa0])))
           [x01; xff; xd9]).
  vm_compute. reflexivity.
Defined.

(** ** Frames the search lands on *)

Lemma framed_call self conn beg lo hi data c1 c2 tail :
  serial_connection self = Some conn -> is_open conn = true ->
  locate_header (List.length (buffer self ++ firstn 2048 (rx conn))) (sp_max self)
    (buffer self ++ firstn 2048 (rx conn)) = Some beg ->
  framed (buffer self ++ firstn 2048 (rx conn)) beg lo hi data c1 c2 tail ->
  let e := List.length data + 8 in
  let late := late_bytes e (rx conn) in
  let reject := negb (bytes_eqb [c1; c2] [xff; xa0])
                && negb (bytes_eqb [c1] (inverted_low_byte (rohc data))) in
  let self' := snd (get_next_jpeg_frame self) in
  fst (get_next_jpeg_frame self) = Val (if reject then None else Some data) /\
  buffer self' = (if reject then tail ++ late else [c1; c2] ++ tail ++ late) /\
  sp_max self' = (if reject then sp_max self else Nat.max (sp_max self) e) /\
  camera_status self' = camera_status self /\
  camera_output_outgoing self' = camera_output_outgoing self.
Proof.
  intros Hc Ho Hloc (Hlay & Hlen & Hterm). cbv zeta.
  destruct (get_next_jpeg_frame_fields self conn Hc Ho) as (Hr & Hb & Hs & _ & Hst & Hq & _).
  rewrite Hr, Hb, Hs, Hst, Hq.
  rewrite (frame_step_located _ _ _ _ _ _ _ _ _ _ Hloc Hlay Hlen Hterm).
  unfold late_bytes.
  destruct (negb (bytes_eqb [c1; c2] _) && negb _); cbn [fo_result fo_buffer fo_sp_max];
    repeat split.
  destruct (sp_max self <? _) eqn:E; [apply Nat.ltb_lt in E|apply Nat.ltb_ge in E]; lia.
Qed.

(** ** C3 *)

(** C3 (checksum mismatch).  For every frame the header search lands on that
    is fully buffered and terminated, whose two trailer bytes are not the
    no-checksum sentinel and whose checksum byte differs from the inverted
    low byte of the ROHC CRC of the payload: [get_next_jpeg_frame] returns no
    payload ([False]), the accumulator is cut at the frame's end offset [end]
    (only what followed the frame is kept), and nothing else changes:
    [sp_max], the camera status and the output queue are as before, and no
    exception is raised. *)
Theorem C3_checksum_mismatch_rejected (self : Camera) (conn : Serial) (beg : nat)
  (lo hi : byte) (data : bytes) (c1 c2 : byte) (tail : bytes) :
  serial_connection self = Some conn -> is_open conn = true ->
  locate_header (List.length (buffer self ++ firstn 2048 (rx conn))) (sp_max self)
    (buffer self ++ firstn 2048 (rx conn)) = Some beg ->
  framed (buffer self ++ firstn 2048 (rx conn)) beg lo hi data c1 c2 tail ->
  [c1; c2] <> [xff; xa0] ->
  [c1] <> inverted_low_byte (rohc data) ->
  let self' := snd (get_next_jpeg_frame self) in
  fst (get_next_jpeg_frame self) = Val None /\
  buffer self' = tail ++ late_bytes (List.length data + 8) (rx conn) /\
  frame_end (skipn beg (buffer self ++ firstn 2048 (rx conn))) = List.length data + 8 /\
  sp_max self' = sp_max self /\
  camera_status self' = camera_status self /\
  camera_output_outgoing self' = camera_output_outgoing self.
Proof.
  intros Hc Ho Hloc Hf Hs Hk.
  pose proof (framed_call self conn beg lo hi data c1 c2 tail Hc Ho Hloc Hf) as H.
  cbv zeta in H. apply bytes_eqb_neq in Hs. apply bytes_eqb_neq in Hk.
  rewrite Hs, Hk in H. cbn [negb andb] in H.
  destruct H as (H1 & H2 & H3 & H4 & H5). cbv zeta.
  destruct Hf as (Hlay & Hlen & _).
  rewrite Hlay, frame_end_layout, Hlen. auto 10.
Qed.


(** ** C4 *)

(** C4, as amended.  For every frame the header search lands on that is fully
    buffered and terminated, the checksum is skipped exactly when the TWO
    bytes that follow the payload, [buffer[end-2:end]], are [ff a0], the
    FIRST magic marker of the header (the start of the next frame of a
    firmware that sends no checksum): the frame is then returned whatever the
    payload's CRC.  For any other pair the first of the two bytes is compared
    with the inverted low byte of the ROHC CRC of the payload, and the frame
    is returned if they are equal and rejected otherwise; in particular the
    pair [ff a1] (the second marker) is validated like any other. *)
Theorem C4_checksum_skipped_on_sentinel (self : Camera) (conn : Serial) (beg : nat)
  (lo hi : byte) (data : bytes) (c1 c2 : byte) (tail : bytes) :
  serial_connection self = Some conn -> is_open conn = true ->
  locate_header (List.length (buffer self ++ firstn 2048 (rx conn))) (sp_max self)
    (buffer self ++ firstn 2048 (rx conn)) = Some beg ->
  framed (buffer self ++ firstn 2048 (rx conn)) beg lo hi data c1 c2 tail ->
  ([c1; c2] = [xff; xa0] -> fst (get_next_jpeg_frame self) = Val (Some data)) /\
  ([c1; c2] <> [xff; xa0] ->
   fst (get_next_jpeg_frame self)
   = Val (if bytes_eqb [c1] (inverted_low_byte (rohc data)) then Some data else None)).
Proof.
  intros Hc Ho Hloc Hf.
  pose proof (framed_call self conn beg lo hi data c1 c2 tail Hc Ho Hloc Hf) as H.
  cbv zeta in H. destruct H as (H & _). split; intros Hs.
  - apply bytes_eqb_eq in Hs. rewrite Hs in H. exact H.
  - apply bytes_eqb_neq in Hs. rewrite Hs in H. cbn [negb andb] in H.
    rewrite H. destruct (bytes_eqb [c1] _); reflexivity.
Qed.

(** ** C1 *)





(** ** C5 *)


(** ** C6 *)

Lemma pump_sp_max line : forall self, sp_max self <= sp_max (pump line self).
Proof.
  induction line as [|data line IH]; intros self; cbn [pump]; [lia|].
  etransitivity; [|apply IH].
  set (fed := set_serial_connection _ self).
  assert (Hsp : sp_max fed = sp_max self) by (destruct self; reflexivity).
  rewrite <- Hsp.
  destruct (serial_connection fed) as [conn|] eqn:Hc.
  2:{ rewrite get_next_jpeg_frame_no_port by (rewrite Hc; exact I). cbn [snd]. lia. }
  destruct (is_open conn) eqn:Ho.
  2:{ rewrite get_next_jpeg_frame_no_port by (rewrite Hc; exact Ho). cbn [snd]. lia. }
  destruct (get_next_jpeg_frame_fields fed conn Hc Ho) as (_ & _ & Hs & _).
  rewrite Hs.
  destruct (frame_step_sp_max (buffer fed) (sp_max fed) (rx conn)) as [->|(beg & _ & _ & Hlt)]; lia.
Qed.

(** C6 ([sp_max] only grows).  Over any sequence of calls of
    [get_next_jpeg_frame] on one accumulator, whatever arrives on the line
    between them, [sp_max] never decreases.  A call that changes it assigns
    the end offset [end] computed for the header the search landed on, and
    that offset is strictly greater than the value before.  The update is
    also made when the header was found but the frame is not yet complete in
    the buffer: the call then returns [False], keeps the buffer from the
    header on, and [sp_max] becomes the larger of its old value and [end]. *)
Theorem C6_sp_max_monotone :
  (forall line self, sp_max self <= sp_max (pump line self)) /\
  (forall self, sp_max self <= sp_max (snd (get_next_jpeg_frame self))) /\
  (forall self,
     sp_max (snd (get_next_jpeg_frame self)) <> sp_max self ->
     exists conn beg,
       serial_connection self = Some conn /\
       locate_header (List.length (buffer self ++ firstn 2048 (rx conn)))
         (sp_max self) (buffer self ++ firstn 2048 (rx conn)) = Some beg /\
       sp_max (snd (get_next_jpeg_frame self))
       = frame_end (skipn beg (buffer self ++ firstn 2048 (rx conn))) /\
       sp_max self < sp_max (snd (get_next_jpeg_frame self))) /\
  (forall self conn beg,
     serial_connection self = Some conn -> is_open conn = true ->
     locate_header (List.length (buffer self ++ firstn 2048 (rx conn)))
       (sp_max self) (buffer self ++ firstn 2048 (rx conn)) = Some beg ->
     ETVR_HEADER_LEN <= List.length (skipn beg (buffer self ++ firstn 2048 (rx conn))) ->
     List.length (skipn beg (buffer self ++ firstn 2048 (rx conn)))
     < frame_end (skipn beg (buffer self ++ firstn 2048 (rx conn))) ->
     List.length (skipn 2048 (rx conn))
     < frame_end (skipn beg (buffer self ++ firstn 2048 (rx conn))) ->
     fst (get_next_jpeg_frame self) = Val None /\
     buffer (snd (get_next_jpeg_frame self))
     = skipn beg (buffer self ++ firstn 2048 (rx conn)) /\
     sp_max (snd (get_next_jpeg_frame self))
     = Nat.max (sp_max self)
         (frame_end (skipn beg (buffer self ++ firstn 2048 (rx conn))))).
Proof.
  assert (Hstep : forall self,
            sp_max (snd (get_next_jpeg_frame self)) = sp_max self \/
            exists conn beg,
              serial_connection self = Some conn /\
              locate_header (List.length (buffer self ++ firstn 2048 (rx conn)))
                (sp_max self) (buffer self ++ firstn 2048 (rx conn)) = Some beg /\
              sp_max (snd (get_next_jpeg_frame self))
              = frame_end (skipn beg (buffer self ++ firstn 2048 (rx conn))) /\
              sp_max self < sp_max (snd (get_next_jpeg_frame self))).
  { intros self.
    destruct (serial_connection self) as [conn|] eqn:Hc.
    2:{ rewrite get_next_jpeg_frame_no_port by (rewrite Hc; exact I). now left. }
    destruct (is_open conn) eqn:Ho.
    2:{ rewrite get_next_jpeg_frame_no_port by (rewrite Hc; exact Ho). now left. }
    destruct (get_next_jpeg_frame_fields self conn Hc Ho) as (_ & _ & Hs & _).
    rewrite Hs.
    destruct (frame_step_sp_max (buffer self) (sp_max self) (rx conn))
      as [->|(beg & H1 & H2 & H3)]; [now left|right].
    exists conn, beg. auto. }
  split; [exact pump_sp_max|]. split; [|split].
  - intros self. destruct (Hstep self) as [->|(? & ? & _ & _ & _ & H)]; lia.
  - intros self Hne. destruct (Hstep self) as [H|H]; [contradiction|exact H].
  - intros self conn beg Hc Ho Hloc H6 Hb Hr.
    destruct (get_next_jpeg_frame_fields self conn Hc Ho) as (Hres & Hbuf & Hs & _).
    rewrite Hres, Hbuf, Hs.
    rewrite (frame_step_incomplete _ _ _ _ Hloc H6 Hb Hr). auto.
Qed.

(** ** Witnesses and counterexamples for the framer *)

Lemma C3_checksum_mismatch_rejected_witness :
  fst (get_next_jpeg_frame (serial_camera wire_bad_checksum)) = Val None /\
  buffer (snd (get_next_jpeg_frame (serial_camera wire_bad_checksum))) = [x08; x09].
Proof.
  destruct (C3_checksum_mismatch_rejected
              (serial_camera wire_bad_checksum)
              {| port := "COM3"; is_open := true; rx := wire_bad_checksum |}
              0 x03 x00 [x01; xff; xd9] x00 x07 [x08; x09])
    as (H1 & H2 & _).
  - reflexivity.
  - reflexivity.
  - vm_compute. reflexivity.
  - split; [reflexivity|]. split; [reflexivity|]. exists [x01]. reflexivity.
  - discriminate.
  - vm_compute. discriminate.
  - split; [exact H1|exact H2].
Defined.

Lemma C4_checksum_skipped_on_sentinel_witness :
  fst (get_next_jpeg_frame (serial_camera wire_no_checksum))
  = Val (Some [x01; xff; xd9]).
Proof.
  apply (C4_checksum_skipped_on_sentinel
           (serial_camera wire_no_checksum)
           {| port := "COM3"; is_open := true; rx := wire_no_checksum |}
           0 x03 x00 [x01; xff; xd9] xff xa0 [x08; x09]).
  - reflexivity.
  - reflexivity.
  - vm_compute. reflexivity.
  - split; [reflexivity|]. split; [reflexivity|]. exists [x01]. reflexivity.
  - reflexivity.
Defined.

(** The claim C4 as the specification words it fails on the code: with the
    header's SECOND marker [ff a1] in the trailer the checksum is validated
    (here it does not match and the frame is rejected), and so it is when the
    checksum byte alone is [a1]; it is the FIRST marker [ff a0] that switches
    validation off (the frame is returned although [ff] is not its
    checksum). *)
Lemma C4_counterexample :
  inverted_low_byte (rohc [x01; xff; xd9]) = [x03] /\
  fst (get_next_jpeg_frame (serial_camera wire_marker_b)) = Val None /\
  fst (get_next_jpeg_frame
         (serial_camera (ETVR_HEADER ++ [x03; x00] ++ [x01; xff; xd9]
                         ++ [xa1; x00] ++ [x08; x09]))) = Val None /\
  fst (get_next_jpeg_frame (serial_camera wire_no_checksum))
  = Val (Some [x01; xff; xd9]).
Proof. vm_compute. repeat split. Qed.




Lemma C6_sp_max_monotone_witness :
  let self := serial_camera (ETVR_HEADER ++ [x00; x10] ++ [x01; x02]) in
  sp_max self = 2560 /\
  fst (get_next_jpeg_frame self) = Val None /\
  buffer (snd (get_next_jpeg_frame self)) = ETVR_HEADER ++ [x00; x10] ++ [x01; x02] /\
  sp_max (snd (get_next_jpeg_frame self)) = 4104.
Proof.
  intros self.
  destruct C6_sp_max_monotone as (_ & _ & _ & H).
  destruct (H self {| port := "COM3"; is_open := true;
                      rx := ETVR_HEADER ++ [x00; x10] ++ [x01; x02] |} 0)
    as (H1 & H2 & H3).
  - reflexivity.
  - reflexivity.
  - vm_compute. reflexivity.
  - apply Nat.leb_le. vm_compute. reflexivity.
  - apply Nat.ltb_lt. vm_compute. reflexivity.
  - apply Nat.ltb_lt. vm_compute. reflexivity.
  - split; [reflexivity|]. split; [exact H1|]. split; [exact H2|].
    rewrite H3. vm_compute. reflexivity.
Defined.

(** At the boundary [10 * len = 23 * sp_max] the binary64 product decides:
    [2560 * 2.3] is exactly 5888.0, [2570 * 2.3] is 5910.999999999999. *)
Example skip_ahead_boundary :
  skip_ahead 5888 2560 = false /\ skip_ahead 5911 2570 = true.
Proof. vm_compute. split; reflexivity. Qed.

(** ** C9: the resolution clamp *)

Lemma clamp_max_res_unchanged image :
  np_max (shape image) <= MAX_RESOLUTION -> clamp_max_res image = image.
Proof.
  intros H. unfold clamp_max_res.
  replace (MAX_RESOLUTION <? np_max (shape image)) with false; [reflexivity|].
  symmetry. apply Nat.ltb_ge. exact H.
Qed.

(** The two examples of the specification. *)
Example clamp_max_res_1200x600 :
  shape (clamp_max_res (Frame [600; 1200; 3] 0)) = [300; 600; 3].
Proof. vm_compute. reflexivity. Qed.

Example clamp_max_res_400x300 :
  clamp_max_res (Frame [300; 400; 3] 0) = Frame [300; 400; 3] 0.
Proof. apply clamp_max_res_unchanged. vm_compute. repeat constructor. Qed.

(** C9 (the clamp misses the cap by one).  An image 1109 wide and 700 high is
    larger than the cap, and [clamp_max_res] makes it 599 wide, not 600:
    [600 / 1109] rounds down in binary64, [1109 * (600 / 1109)] is
    [599.9999999999999] and [int] truncates it; the larger dimension of the
    result is below the cap the claim says it equals. *)
Theorem C9_clamp_max_res_off_by_one :
  np_max (shape (Frame [700; 1109; 3] 0)) = 1109 /\
  fmul (float_of_nat 1109) (fdiv (float_of_nat MAX_RESOLUTION) (float_of_nat 1109))
  = S754_finite false 5277655813324799 (-43) /\
  shape (clamp_max_res (Frame [700; 1109; 3] 0)) = [378; 599; 3] /\
  np_max (shape (clamp_max_res (Frame [700; 1109; 3] 0))) <> MAX_RESOLUTION.
Proof. vm_compute. repeat split. discriminate. Qed.

(** ** The loop of [run] *)

Ltac munfold :=
  unfold bind, gets, ret, modify, when, log, raise, try_except.







Lemma open_cv2_camera_eq w self :
  open_cv2_camera w self = (Val tt, reopened w self).
Proof. destruct self. reflexivity. Qed.

Lemma ensure_connected_reopen w self :
  is_None (capture_source (config self)) = false ->
  opt_Source_eqb (capture_source (config self)) (Some (SrcStr "")) = false ->
  str_contains "COM" (py_str (capture_source (config self))) = false ->
  cv2_stale self = true -> cancellation_wait w = false ->
  ensure_connected w self = (Val (Some false), reopened w self).
Proof.
  intros Hn He Hcom Hst Hw. unfold ensure_connected. munfold. mred.
  rewrite Hn, He. mred. rewrite Hcom. mred. rewrite Hst. mred. rewrite Hw. mred.
  rewrite open_cv2_camera_eq. reflexivity.
Qed.

Lemma ensure_connected_webcam_healthy w self :
  is_None (capture_source (config self)) = false ->
  opt_Source_eqb (capture_source (config self)) (Some (SrcStr "")) = false ->
  str_contains "COM" (py_str (capture_source (config self))) = false ->
  cv2_stale self = false ->
  ensure_connected w self = (Val (Some true), self).
Proof.
  intros Hn He Hcom Hst. unfold ensure_connected. munfold. mred.
  rewrite Hn, He. mred. rewrite Hcom. mred. rewrite Hst. reflexivity.
Qed.

Lemma ensure_connected_serial_healthy w self :
  is_None (capture_source (config self)) = false ->
  opt_Source_eqb (capture_source (config self)) (Some (SrcStr "")) = false ->
  str_contains "COM" (py_str (capture_source (config self))) = true ->
  serial_stale self = false ->
  ensure_connected w self = (Val (Some true), self).
Proof.
  intros Hn He Hcom Hst. unfold ensure_connected. munfold. mred.
  rewrite Hn, He. mred. rewrite Hcom. mred. rewrite Hst. reflexivity.
Qed.

Lemma ensure_connected_serial_start w self :
  is_None (capture_source (config self)) = false ->
  opt_Source_eqb (capture_source (config self)) (Some (SrcStr "")) = false ->
  str_contains "COM" (py_str (capture_source (config self))) = true ->
  serial_stale self = true ->
  ensure_connected w self
  = (let (r, self') :=
       start_serial_connection w (capture_source (config self))
         (set_current_capture_source (capture_source (config self)) self) in
     (match r with Val _ => Val (Some true) | Exn => Exn end, self')).
Proof.
  intros Hn He Hcom Hst. unfold ensure_connected. munfold. mred.
  rewrite Hn, He. mred. rewrite Hcom. mred. rewrite Hst. mred.
  destruct (start_serial_connection _ _ _) as [[|] ?]; reflexivity.
Qed.

(** [start_serial_connection] on a port that is enumerated and opens, with
    no connection yet. *)
Lemma start_serial_connection_fresh w p self :
  serial_connection self = None ->
  existsb (port_in (Some (SrcStr p))) (comports w) = true ->
  serial_opens w p = true ->
  start_serial_connection w (Some (SrcStr p)) self
  = (Val tt,
     set_camera_status CONNECTED
       (set_serial_connection
          (Some {| port := p; is_open := true; rx := serial_pending w p |})
          (set_calls (calls self ++ [CallStartSerial p; CallSerialOpen p]) self))).
Proof.
  intros Hc He Ho. unfold start_serial_connection. munfold. mred.
  rewrite Hc, He, Ho. mred. destruct self. mred.
  rewrite <- app_assoc. reflexivity.
Qed.


Lemma del_eq self :
  del self
  = (Val tt,
     match serial_connection self with
     | Some conn =>
         set_serial_connection (Some (ser_close conn))
           (set_calls (calls self ++ [CallSerialClose]) self)
     | None => self
     end).
Proof.
  unfold del, conn_close, with_conn. munfold. mred.
  destruct (serial_connection self) as [conn|] eqn:Hc; [|reflexivity].
  mred. rewrite Hc. reflexivity.
Qed.

(** A webcam read that is not to be pushed: the frame, if one comes, is
    consumed and measured; the queue is not touched. *)
Lemma get_cv2_camera_picture_warmup w self :
  let r := get_cv2_camera_picture w false self in
  fst r = Val tt /\
  camera_output_outgoing (snd r) = camera_output_outgoing self /\
  config (snd r) = config self /\
  match next_frame self with
  | Some image =>
      calls (snd r) = calls self ++ [CallCv2Picture false; CallFrameRead] /\
      FRAME_SIZE (snd r) = shape image /\
      camera_status (snd r) = camera_status self /\
      cv2_camera (snd r) = option_map (fun cap => snd (vc_read cap)) (cv2_camera self)
  | None =>
      calls (snd r) = calls self ++ [CallCv2Picture false] /\
      camera_status (snd r) = DISCONNECTED
  end.
Proof.
  cbv zeta. unfold get_cv2_camera_picture, next_frame, update_fps. munfold. mred.
  destruct self as [? ? ? ? ? ? ? [cap|] ? ? ? ? ? ? ? ?]; mred; [|repeat split].
  destruct (vc_read cap) as [[image|] cap'] eqn:Hr; mred; munfold; mred; repeat split.
  - rewrite <- app_assoc. reflexivity.
  - cbn [option_map]. rewrite Hr. reflexivity.
Qed.

Lemma reopened_fields w self :
  config (reopened w self) = config self /\
  camera_status (reopened w self) = camera_status self /\
  camera_output_outgoing (reopened w self) = camera_output_outgoing self /\
  serial_connection (reopened w self) = serial_connection self /\
  capture_event (reopened w self) = capture_event self /\
  calls (reopened w self)
  = calls self ++ [CallVideoOpen (current_capture_source (reopened w self))
                     (use_ffmpeg (config self))] /\
  cv2_camera (reopened w self)
  = Some (apply_hints (settings self)
            (cv2_VideoCapture w (current_capture_source (reopened w self))
               (use_ffmpeg (config self)))).
Proof. destruct self. repeat split. Qed.



Lemma closed_fields self :
  config (closed self) = config self /\
  camera_status (closed self) = camera_status self /\
  camera_output_outgoing (closed self) = camera_output_outgoing self /\
  cv2_camera (closed self) = cv2_camera self /\
  calls (closed self)
  = calls self ++ (if is_None (serial_connection self) then [] else [CallSerialClose]).
Proof.
  unfold closed. rewrite del_eq. cbn [snd].
  destruct self as [? ? ? ? ? ? ? ? [conn|] ? ? ? ? ? ? ?]; mred; cbn [is_None];
    rewrite ?app_nil_r; repeat split.
Qed.

(** An iteration that reopens the webcam: the connection phase, [__del__],
    one read that is not pushed, then [CONNECTED]. *)
Lemma run_iter_warmup w self :
  webcam_source (capture_source (config self)) ->
  cv2_stale self = true ->
  cancellation_is_set w = false -> cancellation_wait w = false ->
  run_iter w self
  = (Val Continue,
     set_camera_status CONNECTED
       (snd (get_cv2_camera_picture w false (closed (reopened w self))))).
Proof.
  intros (Hn & He & Hcom & Htty) Hst Hset Hw.
  unfold run_iter. rewrite Hset. unfold bind at 1.
  rewrite (ensure_connected_reopen w self Hn He Hcom Hst Hw).
  destruct (reopened_fields w self) as (Hcfg & _).
  munfold. mred. rewrite Hcfg, Hn. mred. rewrite Hcom, Htty. mred.
  unfold closed. destruct (del (reopened w self)) as [rd s1] eqn:Hd.
  rewrite del_eq in Hd. injection Hd as <- Hs1. cbn [snd].
  destruct (get_cv2_camera_picture_warmup w s1) as (Hr & _).
  destruct (get_cv2_camera_picture w false s1) as [r s2]. cbn [fst snd] in *.
  subst r. reflexivity.
Qed.

(** ** C7 *)

(** C7, as amended.  Webcam back end: in an iteration that (re)opens the
    capture, the connection phase leaves [camera_status] as it was; the one
    read of the iteration is made with [should_push = False], so a frame it
    delivers is consumed (its shape is recorded) and not pushed to the output
    queue; only after that read is [camera_status] set to [CONNECTED].
    Serial back end: there is no warm-up; [start_serial_connection] sets
    [CONNECTED] as soon as the enumerated port opens, before any frame is
    pulled, and the iteration goes on with [should_push = True], so the first
    frame extracted is pushed. *)
Theorem C7_warmup_webcam_only :
  (forall w self,
     webcam_source (capture_source (config self)) ->
     cv2_stale self = true ->
     cancellation_is_set w = false -> cancellation_wait w = false ->
     let s1 := snd (ensure_connected w self) in
     let s2 := snd (run_iter w self) in
     fst (ensure_connected w self) = Val (Some false) /\
     camera_status s1 = camera_status self /\
     calls s1 = calls self ++ [CallVideoOpen (current_capture_source s1)
                                 (use_ffmpeg (config self))] /\
     fst (run_iter w self) = Val Continue /\
     camera_output_outgoing s2 = camera_output_outgoing self /\
     camera_status s2 = CONNECTED /\
     match next_frame s1 with
     | Some image =>
         FRAME_SIZE s2 = shape image /\
         calls s2 = calls s1
                    ++ (if is_None (serial_connection self) then [] else [CallSerialClose])
                    ++ [CallCv2Picture false; CallFrameRead]
     | None =>
         calls s2 = calls s1
                    ++ (if is_None (serial_connection self) then [] else [CallSerialClose])
                    ++ [CallCv2Picture false]
     end) /\
  (forall w self p,
     capture_source (config self) = Some (SrcStr p) ->
     str_contains "COM" p = true ->
     serial_connection self = None ->
     existsb (port_in (Some (SrcStr p))) (comports w) = true ->
     serial_opens w p = true ->
     let s1 := snd (ensure_connected w self) in
     fst (ensure_connected w self) = Val (Some true) /\
     camera_status s1 = CONNECTED /\
     calls s1 = calls self ++ [CallStartSerial p; CallSerialOpen p] /\
     camera_output_outgoing s1 = camera_output_outgoing self).
Proof.
  split.
  - intros w self Hsrc Hst Hset Hw. cbv zeta.
    pose proof Hsrc as (Hn & He & Hcom & Htty).
    rewrite (ensure_connected_reopen w self Hn He Hcom Hst Hw).
    rewrite (run_iter_warmup w self Hsrc Hst Hset Hw). cbn [fst snd].
    destruct (reopened_fields w self) as (Hcfg & Hstat & Hq & Hser & _ & Hcalls & Hcap).
    destruct (closed_fields (reopened w self)) as (Ccfg & Cstat & Cq & Ccap & Ccalls).
    pose proof (get_cv2_camera_picture_warmup w (closed (reopened w self))) as Hp.
    cbv zeta in Hp. destruct Hp as (_ & Pq & _ & Pm).
    set (s2 := snd (get_cv2_camera_picture w false (closed (reopened w self)))) in *.
    assert (Hnf : next_frame (closed (reopened w self)) = next_frame (reopened w self)).
    { unfold next_frame. rewrite Ccap. reflexivity. }
    rewrite Hnf in Pm. rewrite Hser in Ccalls.
    split; [reflexivity|]. split; [exact Hstat|]. split; [exact Hcalls|].
    split; [reflexivity|].
    split; [destruct s2; mred; cbn in Pq; congruence|].
    split; [destruct s2; reflexivity|].
    destruct (next_frame (reopened w self)) as [image|].
    + destruct Pm as (P1 & P2 & _). split.
      * destruct s2; mred; cbn in P2; exact P2.
      * destruct s2; mred; cbn in P1. rewrite P1, Ccalls, <- app_assoc. reflexivity.
    + destruct Pm as (P1 & _).
      destruct s2; mred; cbn in P1. rewrite P1, Ccalls, <- app_assoc. reflexivity.
  - intros w self p Hsrc Hcom Hc Hen Hop. cbv zeta.
    assert (Hn : is_None (capture_source (config self)) = false) by (rewrite Hsrc; reflexivity).
    assert (He : opt_Source_eqb (capture_source (config self)) (Some (SrcStr "")) = false).
    { rewrite Hsrc. cbn. destruct p; [discriminate|reflexivity]. }
    assert (Hcom' : str_contains "COM" (py_str (capture_source (config self))) = true)
      by (rewrite Hsrc; exact Hcom).
    assert (Hst : serial_stale self = true) by (unfold serial_stale; rewrite Hc; reflexivity).
    rewrite (ensure_connected_serial_start w self Hn He Hcom' Hst), Hsrc.
    rewrite start_serial_connection_fresh; [|destruct self; exact Hc|exact Hen|exact Hop].
    cbn [fst snd]. destruct self; repeat split.
Qed.

Lemma C7_warmup_webcam_only_witness :
  camera_status (snd (ensure_connected webcam_world (example_camera "0"))) = CONNECTING /\
  camera_output_outgoing (snd (run_iter webcam_world (example_camera "0"))) = [] /\
  camera_status (snd (run_iter webcam_world (example_camera "0"))) = CONNECTED /\
  FRAME_SIZE (snd (run_iter webcam_world (example_camera "0"))) = [480; 640; 3].
Proof.
  destruct C7_warmup_webcam_only as (H & _).
  destruct (H webcam_world (example_camera "0")) as (_ & H1 & _ & _ & H2 & H3 & H4).
  - repeat split.
  - reflexivity.
  - reflexivity.
  - reflexivity.
  - split; [exact H1|]. split; [exact H2|]. split; [exact H3|].
    apply (proj1 H4).
Defined.

(** The claim C7 fails on the serial back end.  A camera configured on
    [COM3], the port enumerated and opening: with no frame requested the
    iteration ends [CONNECTED] having done nothing but open the port; with a
    frame requested and one waiting on the line, that first frame of the
    fresh connection is pushed to the output queue. *)
Lemma C7_counterexample :
  (camera_status (snd (run_iter serial_world (example_camera "COM3"))) = CONNECTED /\
   calls (snd (run_iter serial_world (example_camera "COM3")))
   = [CallStartSerial "COM3"; CallSerialOpen "COM3"]) /\
  (calls (snd (run_iter serial_world (set_capture_event true (example_camera "COM3"))))
   = [CallStartSerial "COM3"; CallSerialOpen "COM3"; CallSerialPicture true;
      CallFrameRead; CallPush] /\
   map q_image
     (camera_output_outgoing
        (snd (run_iter serial_world (set_capture_event true (example_camera "COM3")))))
   = [clamp_max_res (example_frame 7)]).
Proof. vm_compute. repeat split. Qed.

(** ** C8 *)




(** * Further properties of the camera *)

(** ** Rules for triples *)

Lemma triple_ret {A} (I : Camera -> Prop) (a : A) : triple I (ret a) I.
Proof. intros self H. exact H. Qed.

Lemma triple_raise {A} (I : Camera -> Prop) : triple I (@raise A) I.
Proof. intros self H. exact H. Qed.

Lemma triple_gets {A} (I : Camera -> Prop) (f : Camera -> A) : triple I (gets f) I.
Proof. intros self H. exact H. Qed.

Lemma triple_modify (P Q : Camera -> Prop) (f : Camera -> Camera) :
  (forall self, P self -> Q (f self)) -> triple P (modify f) Q.
Proof. intros Hf self H. apply Hf. exact H. Qed.

Lemma triple_bind {A B} (P R Q : Camera -> Prop) (m : M A) (k : A -> M B) :
  triple P m R -> (forall a, triple R (k a) Q) -> (forall self, R self -> Q self) ->
  triple P (bind m k) Q.
Proof.
  intros Hm Hk HRQ self H. unfold bind. specialize (Hm self H).
  destruct (m self) as [[a|] s1]; cbn [snd] in *.
  - apply (Hk a s1 Hm).
  - apply HRQ. exact Hm.
Qed.

Lemma triple_seq {A B} (I : Camera -> Prop) (m : M A) (k : A -> M B) :
  triple I m I -> (forall a, triple I (k a) I) -> triple I (bind m k) I.
Proof. intros Hm Hk. apply (triple_bind I I I); auto. Qed.

Lemma triple_try {A} (P R Q : Camera -> Prop) (m h : M A) :
  triple P m R -> triple R h Q -> (forall self, R self -> Q self) ->
  triple P (try_except m h) Q.
Proof.
  intros Hm Hh HRQ self H. unfold try_except. specialize (Hm self H).
  destruct (m self) as [[a|] s1]; cbn [snd] in *.
  - apply HRQ. exact Hm.
  - apply (Hh s1 Hm).
Qed.

Lemma triple_weaken {A} (P P' Q Q' : Camera -> Prop) (m : M A) :
  triple P' m Q' -> (forall self, P self -> P' self) ->
  (forall self, Q' self -> Q self) -> triple P m Q.
Proof. intros Hm HP HQ self H. apply HQ, Hm, HP, H. Qed.

Lemma triple_when (I : Camera -> Prop) (b : bool) (m : M unit) :
  triple I m I -> triple I (when b m) I.
Proof. intros Hm. destruct b; [exact Hm|apply triple_ret]. Qed.

Lemma triple_log (P Q : Camera -> Prop) (c : Call) :
  (forall self l, P self -> Q (set_calls l self)) -> triple P (log c) Q.
Proof. intros Hl self H. apply Hl. exact H. Qed.

Lemma triple_with_conn {A} (I : Camera -> Prop) (f : Serial -> Res A * Serial) :
  (forall self c, I self -> I (set_serial_connection c self)) ->
  triple I (with_conn f) I.
Proof.
  intros Hc self H. unfold with_conn.
  destruct (serial_connection self) as [conn|]; [|exact H].
  destruct (f conn) as [r conn']. apply Hc. exact H.
Qed.

Ltac head_of m :=
  lazymatch m with
  | ?f _ _ _ => constr:(f)
  | ?f _ _ => constr:(f)
  | ?f _ => constr:(f)
  | ?f => constr:(f)
  end.

(** The leaves of a proof that a method keeps an invariant are field
    updates; [leaf] is the tactic that settles them. *)
Ltac triple_inv leaf :=
  cbv beta iota zeta;
  lazymatch goal with
  | |- triple _ (bind _ _) _ =>
      apply triple_seq; [triple_inv leaf | intros ?; triple_inv leaf]
  | |- triple _ (ret _) _ => apply triple_ret
  | |- triple _ raise _ => apply triple_raise
  | |- triple _ (gets _) _ => apply triple_gets
  | |- triple _ (modify _) _ => apply triple_modify; leaf
  | |- triple _ (log _) _ => apply triple_log; leaf
  | |- triple _ (when _ _) _ => apply triple_when; triple_inv leaf
  | |- triple ?I (try_except _ _) _ =>
      apply (triple_try I I I); [triple_inv leaf | triple_inv leaf | auto]
  | |- triple _ (with_conn _) _ => apply triple_with_conn; leaf
  | |- triple _ (if ?c then _ else _) _ => destruct c; triple_inv leaf
  | |- triple _ (match ?x with _ => _ end) _ => destruct x; triple_inv leaf
  | |- triple _ ?m _ =>
      first [ solve [auto]
            | let h := head_of m in unfold h; triple_inv leaf ]
  end.

Ltac field_leaf :=
  intros; match goal with self : Camera |- _ => destruct self end;
  cbn in *; auto.

(** ** [sp_max] stays in range *)

Lemma Byte_to_N_le x : (Byte.to_N x <= 255)%N.
Proof. destruct x; vm_compute; discriminate. Qed.

Lemma frame_end_bounds buf : (8 <= Z.of_nat (frame_end buf) <= 65543)%Z.
Proof.
  unfold frame_end, slice, ETVR_HEADER_LEN.
  assert (H : (Z.of_nat (int_from_bytes_little (firstn (6 - 4) (skipn 4 buf))) <= 65535)%Z).
  { destruct (skipn 4 buf) as [|lo [|hi r]]; cbn [firstn Nat.sub int_from_bytes_little].
    - lia.
    - pose proof (Byte_to_N_le lo). lia.
    - pose proof (Byte_to_N_le lo). pose proof (Byte_to_N_le hi). lia. }
  lia.
Qed.

Lemma update_sp_max_in_range end_ :
  (Z.of_nat end_ <= 65543)%Z ->
  triple sp_max_in_range (update_sp_max end_) sp_max_in_range.
Proof.
  intros He self H. unfold update_sp_max, bind, gets, when, modify, ret.
  destruct (sp_max self <? end_) eqn:E; cbn [snd]; [|exact H].
  apply Nat.ltb_lt in E. unfold sp_max_in_range in *. destruct self. cbn in *. lia.
Qed.

Lemma get_next_jpeg_frame_sp_max_in_range :
  triple sp_max_in_range get_next_jpeg_frame sp_max_in_range.
Proof.
  pose proof (fun buf => update_sp_max_in_range (frame_end buf)
                           (proj2 (frame_end_bounds buf))) as Hu.
  unfold sp_max_in_range in *.
  unfold get_next_jpeg_frame, serial_read, conn_read, conn_in_waiting.
  triple_inv field_leaf.
Qed.

Lemma run_iter_sp_max_in_range w :
  triple sp_max_in_range (run_iter w) sp_max_in_range.
Proof.
  pose proof get_next_jpeg_frame_sp_max_in_range as Hf.
  unfold sp_max_in_range in *.
  unfold run_iter, ensure_connected, open_cv2_camera, start_serial_connection, del,
    get_serial_camera_picture, get_cv2_camera_picture, push_image_to_queue,
    update_fps, conn_in_waiting, conn_close, conn_reset_input_buffer.
  triple_inv field_leaf.
Qed.

Lemma external_fields e self :
  sp_max (external e self) = sp_max self /\
  camera_status (external e self) = camera_status self /\
  camera_output_outgoing (external e self) = camera_output_outgoing self /\
  capture_event (external e self) = (capture_event self || ext_request e)%bool /\
  buffer (external e self) = buffer self /\
  calls (external e self) = calls self /\
  config (external e self) = ext_config e /\
  settings (external e self) = ext_settings e.
Proof. destruct self. repeat split. Qed.

(** An invariant of every iteration that the other threads do not break is
    an invariant of [run]. *)
Lemma run_invariant (I : Camera -> Prop) :
  (forall w, triple I (run_iter w) I) ->
  (forall e self, I self -> I (external e self)) ->
  forall ws self, I self -> I (run ws self).
Proof.
  intros Hit Hext. induction ws as [|[e w] ws IH]; intros self H; cbn [run]; [exact H|].
  pose proof (Hit w (external e self) (Hext e self H)) as H1.
  destruct (run_iter w (external e self)) as [[[|]|] s1]; cbn [snd] in H1; auto.
Qed.

(** X1 ([sp_max] is bounded).  Whatever the configuration, the worlds and
    the other threads do, the [sp_max] of a camera built by [__init__] and
    run for any number of iterations lies between 2560, its initial value,
    and 65543, the largest end offset a 16-bit length field gives. *)
Theorem X1_sp_max_bounded (config : BabbleConfig) (settings : BabbleSettingsConfig)
  (names : list string) (now : spec_float) (ws : list (External * World)) :
  sp_max_in_range (run ws (Camera_init config settings names now)).
Proof.
  apply run_invariant.
  - exact run_iter_sp_max_in_range.
  - intros e self H. unfold sp_max_in_range in *.
    destruct (external_fields e self) as (-> & _). exact H.
  - unfold sp_max_in_range. cbn. lia.
Qed.

(** ** [CONNECTING] is only the initial state *)

Lemma run_iter_not_connecting w :
  triple (fun self => camera_status self <> CONNECTING) (run_iter w)
    (fun self => camera_status self <> CONNECTING).
Proof.
  unfold run_iter, ensure_connected, open_cv2_camera, start_serial_connection, del,
    get_serial_camera_picture, get_cv2_camera_picture, push_image_to_queue,
    update_fps, get_next_jpeg_frame, update_sp_max, serial_read, conn_read,
    conn_in_waiting, conn_close, conn_reset_input_buffer.
  triple_inv ltac:(field_leaf; discriminate).
Qed.

(** X2 (no way back to [CONNECTING]).  Once the status of a camera is
    [CONNECTED] or [DISCONNECTED], no number of iterations of the loop makes
    it [CONNECTING] again, whatever happens to the configuration and the
    devices: the loop only ever assigns [CONNECTED] and [DISCONNECTED]. *)
Theorem X2_never_back_to_connecting (ws : list (External * World)) (self : Camera) :
  camera_status self <> CONNECTING ->
  camera_status (run ws self) <> CONNECTING.
Proof.
  apply (run_invariant (fun self => camera_status self <> CONNECTING)).
  - exact run_iter_not_connecting.
  - intros e s H. destruct (external_fields e s) as (_ & -> & _). exact H.
Qed.

Lemma X2_never_back_to_connecting_witness :
  camera_status
    (run [(same_config "COM3" true, serial_world); (same_config "COM3" true, serial_world)]
       (set_camera_status DISCONNECTED (example_camera "COM3")))
  <> CONNECTING.
Proof.
  apply (X2_never_back_to_connecting
           [(same_config "COM3" true, serial_world); (same_config "COM3" true, serial_world)]
           (set_camera_status DISCONNECTED (example_camera "COM3"))).
  discriminate.
Defined.

(** ** The output queue: append only, clamped, one item per request *)

Lemma push_image_to_queue_grown q0 image frame_number f :
  triple (grown_from q0) (push_image_to_queue image frame_number f) (grown_from q0).
Proof.
  intros self (new & Hq & Hall). unfold push_image_to_queue, bind, log, modify. cbn [snd].
  destruct self. mred. cbn in Hq. subst.
  eexists (new ++ [_]). split; [rewrite app_assoc; reflexivity|].
  apply Forall_app. split; [exact Hall|]. constructor; [|constructor].
  exists image. reflexivity.
Qed.

Ltac grown_leaf :=
  intros; match goal with self : Camera |- _ => destruct self end;
  unfold grown_from in *; cbn in *; auto.

Lemma run_iter_grown q0 w : triple (grown_from q0) (run_iter w) (grown_from q0).
Proof.
  pose proof (push_image_to_queue_grown q0) as Hp.
  unfold run_iter, ensure_connected, open_cv2_camera, start_serial_connection, del,
    get_serial_camera_picture, get_cv2_camera_picture,
    update_fps, get_next_jpeg_frame, update_sp_max, serial_read, conn_read,
    conn_in_waiting, conn_close, conn_reset_input_buffer.
  triple_inv grown_leaf.
Qed.

(** X3 (the queue is append only, and what is appended is clamped).  The
    camera only ever puts on the output queue: over any run of the loop the
    items put so far stay, in their order ([camera_output_outgoing] records
    the items put; the consumer's takes are not part of the camera), and
    every item the camera adds carries an image that went through
    [clamp_max_res]. *)
Theorem X3_queue_append_only_clamped (ws : list (External * World)) (self : Camera) :
  exists new,
    camera_output_outgoing (run ws self) = camera_output_outgoing self ++ new /\
    Forall (fun item => exists image, q_image item = clamp_max_res image) new.
Proof.
  apply (run_invariant (grown_from (camera_output_outgoing self))).
  - intros w. apply run_iter_grown.
  - intros e s H. unfold grown_from in *.
    destruct (external_fields e s) as (_ & _ & -> & _). exact H.
  - exists []. rewrite app_nil_r. auto.
Qed.

Ltac budget_leaf :=
  intros; match goal with self : Camera |- _ => destruct self end;
  unfold may_push, within_budget, token in *; cbn in *; auto.

Lemma may_push_within b self : may_push b self -> within_budget b self.
Proof. unfold may_push, within_budget, token. intros [H ->]. exact H. Qed.

Lemma push_image_to_queue_budget b image frame_number f :
  triple (may_push b) (push_image_to_queue image frame_number f) (within_budget b).
Proof.
  intros self [Hq He]. unfold push_image_to_queue, bind, log, modify. cbn [snd].
  destruct self. unfold within_budget, token. mred. cbn in Hq.
  rewrite length_app. cbn. lia.
Qed.

(** A method that pushes at most once: up to the push a request is pending,
    after it the budget is used. *)
Ltac triple_push leaf :=
  cbv beta iota zeta;
  lazymatch goal with
  | |- triple ?P (bind _ _) ?Q =>
      first [ apply (triple_bind P P Q);
              [ solve [triple_inv leaf] | intros ?; triple_push leaf
              | solve [auto using may_push_within] ]
            | apply (triple_bind P Q Q);
              [ triple_push leaf | intros ?; solve [triple_inv leaf] | solve [auto] ] ]
  | |- triple ?P (try_except _ _) ?Q =>
      apply (triple_try P Q Q); [triple_push leaf | solve [triple_inv leaf] | auto]
  | |- triple _ (if ?c then _ else _) _ => destruct c; triple_push leaf
  | |- triple _ (match ?x with _ => _ end) _ => destruct x; triple_push leaf
  | |- triple ?P ?m ?Q =>
      first [ solve [auto]
            | apply (triple_weaken P P Q P);
              [ solve [triple_inv leaf] | solve [auto]
              | solve [auto using may_push_within] ] ]
  end.

Lemma get_next_jpeg_frame_may_push b :
  triple (may_push b) get_next_jpeg_frame (may_push b).
Proof.
  unfold get_next_jpeg_frame, update_sp_max, serial_read, conn_read, conn_in_waiting.
  triple_inv budget_leaf.
Qed.

Lemma get_next_jpeg_frame_within_budget b :
  triple (within_budget b) get_next_jpeg_frame (within_budget b).
Proof.
  unfold get_next_jpeg_frame, update_sp_max, serial_read, conn_read, conn_in_waiting.
  triple_inv budget_leaf.
Qed.

Lemma get_serial_camera_picture_budget b w :
  triple (may_push b) (get_serial_camera_picture w true) (within_budget b).
Proof.
  pose proof (push_image_to_queue_budget b) as Hp.
  pose proof (get_next_jpeg_frame_may_push b) as Hf.
  unfold get_serial_camera_picture, update_fps, when,
    conn_in_waiting, conn_close, conn_reset_input_buffer.
  triple_push budget_leaf.
Qed.

Lemma get_cv2_camera_picture_budget b w :
  triple (may_push b) (get_cv2_camera_picture w true) (within_budget b).
Proof.
  pose proof (push_image_to_queue_budget b) as Hp.
  unfold get_cv2_camera_picture, update_fps, when.
  triple_push budget_leaf.
Qed.

Ltac queue_leaf :=
  intros; match goal with self : Camera |- _ => destruct self end;
  unfold queue_is in *; cbn in *; auto.

Lemma ensure_connected_queue q e w :
  triple (queue_is q e) (ensure_connected w) (queue_is q e).
Proof.
  unfold ensure_connected, open_cv2_camera, start_serial_connection, conn_close.
  triple_inv queue_leaf.
Qed.

(** A picture method called with [should_push = False] leaves the queue and
    the request token alone. *)
Lemma pictures_unpushed q e w :
  triple (queue_is q e) (get_serial_camera_picture w false) (queue_is q e) /\
  triple (queue_is q e) (get_cv2_camera_picture w false) (queue_is q e) /\
  triple (queue_is q e) del (queue_is q e).
Proof.
  split; [|split].
  - unfold get_serial_camera_picture, update_fps, when, get_next_jpeg_frame,
      update_sp_max, serial_read, conn_read,
      conn_in_waiting, conn_close, conn_reset_input_buffer.
    triple_inv queue_leaf.
  - unfold get_cv2_camera_picture, update_fps, when. triple_inv queue_leaf.
  - unfold del, conn_close. triple_inv queue_leaf.
Qed.

Lemma del_budget b :
  triple (may_push b) del (may_push b) /\ triple (within_budget b) del (within_budget b).
Proof. split; unfold del, conn_close; triple_inv budget_leaf. Qed.

(** One iteration: what it adds to the queue it takes from the token. *)
Lemma run_iter_budget w self :
  within_budget (List.length (camera_output_outgoing self) + token self)
    (snd (run_iter w self)).
Proof.
  set (b := List.length (camera_output_outgoing self) + token self).
  assert (H0 : within_budget b self) by (unfold within_budget; lia).
  unfold run_iter. destruct (cancellation_is_set w); [exact H0|].
  unfold bind at 1.
  pose proof (ensure_connected_queue (camera_output_outgoing self) (capture_event self)
                w self (conj eq_refl eq_refl)) as [Hq He].
  destruct (ensure_connected w self) as [[[should_push|]|] s1]; cbn [snd] in *.
  2,3: unfold within_budget, token in *; cbn [ret snd]; rewrite Hq, He; exact H0.
  assert (H1 : within_budget b s1)
    by (unfold within_budget, token in *; rewrite Hq, He; exact H0).
  unfold bind at 1. unfold gets at 1. cbn [fst snd].
  destruct (should_push && negb (capture_event s1)) eqn:Hgo; [exact H1|].
  destruct should_push.
  - assert (Hev : capture_event s1 = true) by (destruct (capture_event s1); [reflexivity|discriminate]).
    assert (Hp : may_push b s1).
    { split; [|exact Hev]. subst b. unfold token. rewrite Hq, <- He, Hev. lia. }
    match goal with
    | |- within_budget _ (snd (?m s1)) =>
        assert (T : triple (may_push b) m (within_budget b))
    end.
    { pose proof (get_serial_camera_picture_budget b w) as Hs.
      pose proof (get_cv2_camera_picture_budget b w) as Hc.
      pose proof (proj1 (del_budget b)) as Hd.
      unfold when. triple_push budget_leaf. }
    apply T. exact Hp.
  - match goal with
    | |- within_budget _ (snd (?m s1)) =>
        assert (T : triple (queue_is (camera_output_outgoing s1) (capture_event s1)) m
                      (queue_is (camera_output_outgoing s1) (capture_event s1)))
    end.
    { destruct (pictures_unpushed (camera_output_outgoing s1) (capture_event s1) w)
        as (Hs & Hc & Hd).
      unfold when. triple_inv queue_leaf. }
    destruct (T s1 (conj eq_refl eq_refl)) as [T1 T2].
    unfold within_budget, token in *. rewrite T1, T2. exact H1.
Qed.

(** X4 (one frame per request).  Over any run of the loop, the items the
    camera adds to the output queue, plus the request still pending at the
    end, are at most the request pending at the start plus the requests the
    consumer makes during the run: the camera never pushes a frame that was
    not requested, and never two for one request. *)
Theorem X4_pushes_bounded_by_requests (ws : list (External * World)) (self : Camera) :
  List.length (camera_output_outgoing (run ws self)) + token (run ws self)
  <= List.length (camera_output_outgoing self) + token self + requests ws.
Proof.
  revert self. induction ws as [|[e w] ws IH]; intros self; cbn [run].
  - unfold requests. cbn. lia.
  - set (fed := external e self).
    destruct (external_fields e self) as (_ & _ & Hq & He & _). fold fed in Hq, He.
    assert (Hfed : List.length (camera_output_outgoing fed) + token fed
                   <= List.length (camera_output_outgoing self) + token self
                      + (if ext_request e then 1 else 0)).
    { unfold token. rewrite Hq, He.
      destruct (capture_event self), (ext_request e); cbn; lia. }
    assert (Hreq : requests ((e, w) :: ws)
                   = (if ext_request e then 1 else 0) + requests ws).
    { unfold requests. cbn [filter fst]. destruct (ext_request e); reflexivity. }
    pose proof (run_iter_budget w fed) as Hit. unfold within_budget in Hit.
    destruct (run_iter w fed) as [[[|]|] s1]; cbn [snd] in Hit.
    + specialize (IH s1). lia.
    + lia.
    + lia.
Qed.

(** ** Frames back to back *)






(** ** A frame without its end-of-image marker *)

Lemma startswith_app_l sub b r :
  startswith sub b = true -> startswith sub (b ++ r) = true.
Proof.
  intros H. apply startswith_iff in H. destruct H as (t & ->).
  rewrite <- app_assoc. apply startswith_app.
Qed.

Lemma slice_app_l i j (b r : bytes) :
  j <= List.length b -> slice i j (b ++ r) = slice i j b.
Proof.
  intros H. unfold slice.
  destruct (Nat.le_gt_cases i j) as [Hij|Hij].
  - rewrite skipn_app, firstn_app, length_skipn.
    replace (j - i - (List.length b - i)) with 0 by lia.
    cbn [firstn]. apply app_nil_r.
  - replace (j - i) with 0 by lia. reflexivity.
Qed.

Lemma frame_end_app_l (b r : bytes) :
  ETVR_HEADER_LEN <= List.length b -> frame_end (b ++ r) = frame_end b.
Proof. intros H. unfold frame_end. rewrite slice_app_l by exact H. reflexivity. Qed.

Lemma frame_end_ge buf : 8 <= frame_end buf.
Proof. unfold frame_end, ETVR_HEADER_LEN. lia. Qed.

Lemma stalled_app self r buf' :
  stalled self -> buf' = buffer self ++ r ->
  startswith ETVR_HEADER buf' = true /\
  frame_end buf' = frame_end (buffer self) /\
  frame_end buf' <= List.length buf' /\
  slice (frame_end buf' - 4) (frame_end buf' - 2) buf' <> JPEG_EOI.
Proof.
  intros (Hs & He & Ht) ->.
  pose proof (frame_end_ge (buffer self)) as H8.
  assert (H6 : ETVR_HEADER_LEN <= List.length (buffer self))
    by (unfold ETVR_HEADER_LEN; lia).
  rewrite (frame_end_app_l _ r H6).
  split; [apply startswith_app_l; exact Hs|]. split; [reflexivity|].
  split; [rewrite length_app; lia|].
  rewrite slice_app_l by lia. exact Ht.
Qed.

Lemma frame_step_stalled buf sp pending :
  startswith ETVR_HEADER buf = true ->
  frame_end buf <= List.length buf ->
  slice (frame_end buf - 4) (frame_end buf - 2) buf <> JPEG_EOI ->
  skip_ahead (List.length (buf ++ firstn 2048 pending)) sp = false ->
  fo_result (frame_step buf sp pending) = None /\
  exists r, fo_buffer (frame_step buf sp pending) = buf ++ r.
Proof.
  unfold frame_step. generalize 2048 as rb. intros rb.
  set (a := buf ++ firstn rb pending). set (rest := skipn rb pending).
  intros Hs He Ht Hsk.
  pose proof (frame_end_ge buf) as H8.
  assert (H6 : ETVR_HEADER_LEN <= List.length buf) by (unfold ETVR_HEADER_LEN; lia).
  assert (H6a : ETVR_HEADER_LEN <= List.length a)
    by (unfold a; rewrite length_app; lia).
  apply Nat.leb_le in H6a. rewrite H6a.
  unfold locate_header. rewrite Hsk.
  rewrite (find_front a ETVR_HEADER (startswith_app_l _ _ _ Hs)).
  cbn [skipn]. rewrite H6a.
  assert (Hfe : frame_end a = frame_end buf) by (apply frame_end_app_l; exact H6).
  rewrite !Hfe.
  set (b2 := if frame_end buf <=? List.length rest then a ++ rest else a).
  assert (Hb2 : exists r, b2 = buf ++ r).
  { unfold b2, a. destruct (frame_end buf <=? List.length rest).
    - exists (firstn rb pending ++ rest). rewrite app_assoc. reflexivity.
    - eexists. reflexivity. }
  destruct Hb2 as (r & Hb2).
  assert (Hterm : bytes_eqb (slice (frame_end buf - 4) (frame_end buf - 2) b2) JPEG_EOI
                  = false).
  { apply bytes_eqb_neq. rewrite Hb2, slice_app_l by lia. exact Ht. }
  rewrite Hterm, andb_false_r. cbn [fo_result fo_buffer].
  split; [reflexivity|]. exists r. exact Hb2.
Qed.

(** X6 (a frame without its end-of-image marker blocks the line).  When the
    accumulator starts with a header whose frame is buffered in full and the
    two bytes at its terminator position are not [ff d9], a call that does
    not skip ahead returns no payload and drops nothing: it only appends what
    it read, so the accumulator is in the same situation again.  Nothing
    behind such a frame is delivered until the skip-ahead search (or the
    flush of [get_serial_camera_picture]) gets rid of it. *)
Theorem X6_unterminated_frame_blocks (self : Camera) (conn : Serial) :
  serial_connection self = Some conn -> is_open conn = true ->
  stalled self ->
  skip_ahead (List.length (buffer self ++ firstn 2048 (rx conn))) (sp_max self) = false ->
  let self' := snd (get_next_jpeg_frame self) in
  fst (get_next_jpeg_frame self) = Val None /\
  (exists r, buffer self' = buffer self ++ r) /\
  stalled self'.
Proof.
  intros Hc Ho Hst Hsk. cbv zeta.
  destruct (get_next_jpeg_frame_fields self conn Hc Ho) as (Hr & Hb & _).
  cbv zeta in Hr, Hb.
  pose proof Hst as (Hs & He & Ht).
  destruct (frame_step_stalled (buffer self) (sp_max self) (rx conn) Hs He Ht Hsk)
    as (Hnone & r & Hbuf).
  rewrite Hr, Hnone. split; [reflexivity|].
  rewrite Hbuf in Hb. split; [exists r; exact Hb|].
  destruct (stalled_app self r _ Hst Hb) as (S1 & _ & S3 & S4).
  split; [exact S1|]. split; assumption.
Qed.

(** A frame whose length field announces 3 bytes, with [01 02 03] where the
    payload should end with the marker. *)
Lemma X6_unterminated_frame_blocks_witness :
  let self := set_buffer (ETVR_HEADER ++ [x03; x00; x01; x02; x03; x00; x00])
                (serial_camera wire_good_checksum) in
  fst (get_next_jpeg_frame self) = Val None /\
  (exists r, buffer (snd (get_next_jpeg_frame self)) = buffer self ++ r) /\
  stalled (snd (get_next_jpeg_frame self)).
Proof.
  apply (X6_unterminated_frame_blocks
           (set_buffer (ETVR_HEADER ++ [x03; x00; x01; x02; x03; x00; x00])
              (serial_camera wire_good_checksum))
           {| port := "COM3"; is_open := true; rx := wire_good_checksum |}).
  - reflexivity.
  - reflexivity.
  - split; [reflexivity|]. split; [vm_compute; lia|]. vm_compute. discriminate.
  - vm_compute. reflexivity.
Defined.

(** ** The serial picture method on an open port *)






(** ** No exception escapes an iteration *)

Lemma no_raise_ret {A} (a : A) : no_raise (ret a).
Proof. intros self. discriminate. Qed.

Lemma no_raise_gets {A} (f : Camera -> A) : no_raise (gets f).
Proof. intros self. discriminate. Qed.

Lemma no_raise_modify f : no_raise (modify f).
Proof. intros self. discriminate. Qed.

Lemma no_raise_log c : no_raise (log c).
Proof. intros self. discriminate. Qed.

Lemma no_raise_bind {A B} (m : M A) (k : A -> M B) :
  no_raise m -> (forall a, no_raise (k a)) -> no_raise (bind m k).
Proof.
  intros Hm Hk self. unfold bind. specialize (Hm self).
  destruct (m self) as [[a|] s1]; [apply Hk|]. exfalso. apply Hm. reflexivity.
Qed.

Lemma no_raise_when b m : no_raise m -> no_raise (when b m).
Proof. intros H. destruct b; [exact H|apply no_raise_ret]. Qed.

Lemma no_raise_try {A} (m h : M A) : no_raise h -> no_raise (try_except m h).
Proof.
  intros Hh self. unfold try_except.
  destruct (m self) as [[a|] s1]; [discriminate|apply Hh].
Qed.

Ltac no_raise_tac :=
  cbv beta iota zeta;
  lazymatch goal with
  | |- no_raise (bind _ _) =>
      apply no_raise_bind; [no_raise_tac | intros ?; no_raise_tac]
  | |- no_raise (ret _) => apply no_raise_ret
  | |- no_raise (gets _) => apply no_raise_gets
  | |- no_raise (modify _) => apply no_raise_modify
  | |- no_raise (log _) => apply no_raise_log
  | |- no_raise (when _ _) => apply no_raise_when; no_raise_tac
  | |- no_raise (try_except _ _) => apply no_raise_try; no_raise_tac
  | |- no_raise (if ?c then _ else _) => destruct c; no_raise_tac
  | |- no_raise (match ?x with _ => _ end) => destruct x; no_raise_tac
  | |- no_raise ?m =>
      first [ solve [auto] | let h := head_of m in unfold h; no_raise_tac ]
  end.

Lemma del_no_raise : no_raise del.
Proof. intros self. rewrite del_eq. discriminate. Qed.

Lemma get_cv2_camera_picture_no_raise w b : no_raise (get_cv2_camera_picture w b).
Proof. unfold get_cv2_camera_picture. no_raise_tac. Qed.

Lemma with_conn_keeps_connection {A} (f : Serial -> Res A * Serial) :
  triple (fun self => serial_connection self <> None) (with_conn f)
    (fun self => serial_connection self <> None).
Proof.
  intros self H. unfold with_conn.
  destruct (serial_connection self) as [conn|]; [|congruence].
  destruct (f conn) as [r conn']. destruct self. cbn. discriminate.
Qed.

Lemma serial_body_keeps_connection w b :
  triple (fun self => serial_connection self <> None)
    (n <- conn_in_waiting ;;
     if 0 <? n then
       jpeg <- get_next_jpeg_frame ;;
       let hygiene :=
         n' <- conn_in_waiting ;;
         when (BUFFER_SIZE <=? n')
           (conn_reset_input_buffer ;; modify (set_buffer [])) in
       match jpeg with
       | Some ((_ :: _) as jpeg) =>
           log CallFrameRead ;;
           match cv2_imdecode w jpeg with
           | None => ret tt
           | Some image =>
               current_frame_time <- update_fps w ;;
               f <- gets fps ;;
               modify (set_bps (fmul (float_of_nat (List.length jpeg)) f)) ;;
               when b (push_image_to_queue image current_frame_time f) ;;
               hygiene
           end
       | _ => hygiene
       end
     else ret tt)
    (fun self => serial_connection self <> None).
Proof.
  assert (Hw1 : triple (fun self => serial_connection self <> None) conn_in_waiting
                  (fun self => serial_connection self <> None))
    by apply with_conn_keeps_connection.
  assert (Hw2 : forall n, triple (fun self => serial_connection self <> None)
                            (conn_read n)
                            (fun self => serial_connection self <> None))
    by (intros n; apply with_conn_keeps_connection).
  assert (Hw3 : triple (fun self => serial_connection self <> None)
                  conn_reset_input_buffer
                  (fun self => serial_connection self <> None))
    by apply with_conn_keeps_connection.
  triple_inv field_leaf.
Qed.

Lemma get_serial_camera_picture_no_raise w b :
  no_raise (get_serial_camera_picture w b).
Proof.
  intros self. unfold get_serial_camera_picture.
  unfold bind at 1, log at 1. cbv beta iota.
  set (s0 := set_calls (calls self ++ [CallSerialPicture b]) self).
  unfold bind at 1, gets at 1. cbv beta iota.
  unfold bind at 1, gets at 1. cbv beta iota.
  destruct (serial_connection s0) as [conn|] eqn:Hc; [|discriminate].
  assert (Hbody : forall m h : M unit,
            triple (fun self => serial_connection self <> None) m
              (fun self => serial_connection self <> None) ->
            h = (conn_close ;; modify (set_camera_status DISCONNECTED)) ->
            fst (try_except m h s0) <> Exn).
  { intros m h T ->. unfold try_except.
    pose proof (T s0 ltac:(cbv beta; rewrite Hc; discriminate)) as H1.
    destruct (m s0) as [[[]|] s1]; [discriminate|]. cbn [snd] in H1.
    unfold bind, conn_close, with_conn, modify.
    destruct (serial_connection s1); [discriminate|congruence]. }
  destruct (camera_status s0); [| |discriminate].
  - apply Hbody; [|reflexivity].
    exact (serial_body_keeps_connection w b).
  - apply Hbody; [|reflexivity].
    exact (serial_body_keeps_connection w b).
Qed.

Lemma start_serial_connection_no_raise w port0 :
  no_raise (start_serial_connection w port0).
Proof.
  intros self.
  destruct self as [st cfg stg cl q ev cur cap sc lft f0 b0 buf sp fs cs].
  unfold start_serial_connection, conn_close, with_conn. munfold. mred.
  destruct sc as [[pt o r]|]; mred;
    [destruct o; mred;
     [destruct (opt_Source_eqb (Some (SrcStr pt)) port0); mred; [discriminate|]|]|];
    (destruct (negb (existsb (port_in port0) (comports w))); [discriminate|]);
    (destruct port0 as [[z|p]|]; mred; try discriminate);
    (destruct (serial_opens w p); discriminate).
Qed.

(** X9 (no exception escapes an iteration).  Whatever the state of the
    camera and of the devices, an iteration of the loop of [run] returns: the
    exceptions of the serial port and of the capture (an absent or closed
    port, a capture that was never opened, a failed read) are caught by the
    picture methods and by [start_serial_connection], so the capture thread
    does not die from them. *)
Theorem X9_iteration_never_raises (w : World) (self : Camera) :
  fst (run_iter w self) <> Exn.
Proof.
  revert self. fold (no_raise (run_iter w)).
  pose proof del_no_raise as Hd.
  pose proof (get_cv2_camera_picture_no_raise w) as Hc.
  pose proof (get_serial_camera_picture_no_raise w) as Hs.
  pose proof (start_serial_connection_no_raise w) as Hp.
  unfold run_iter, ensure_connected, open_cv2_camera.
  no_raise_tac.
Qed.

(** ** A serial port that fails *)

(** X10 (a failing serial port).  When the port of the connection is no
    longer open, a call of [get_serial_camera_picture] on a camera that is
    not yet [DISCONNECTED] catches the exception of the first access: it
    closes the connection and sets the status to [DISCONNECTED].  Nothing is
    pushed, the request stays as it was, the accumulator keeps its bytes, and
    the connection now counts as stale, so that the loop calls
    [start_serial_connection] on its next iteration. *)
Theorem X10_serial_port_failure (w : World) (should_push : bool)
  (self : Camera) (conn : Serial) :
  serial_connection self = Some conn -> is_open conn = false ->
  camera_status self <> DISCONNECTED ->
  let self' := snd (get_serial_camera_picture w should_push self) in
  camera_status self' = DISCONNECTED /\
  serial_connection self' = Some (ser_close conn) /\
  camera_output_outgoing self' = camera_output_outgoing self /\
  capture_event self' = capture_event self /\
  buffer self' = buffer self /\
  serial_stale self' = true.
Proof.
  intros Hc Ho Hst. cbv zeta.
  destruct self as [st cfg stg cl q ev cur cap sc lft f0 b0 buf sp fs cs].
  cbn [serial_connection] in Hc. subst sc.
  destruct conn as [p o r]. cbn [is_open] in Ho. subst o.
  cbn [camera_status] in Hst.
  unfold get_serial_camera_picture, conn_in_waiting, conn_close, with_conn,
    serial_stale. munfold. mred.
  destruct st; try congruence; mred; repeat split.
Qed.

Lemma X10_serial_port_failure_witness :
  let self := set_serial_connection
                (Some {| port := "COM3"; is_open := false; rx := [] |})
                (set_camera_status CONNECTED (example_camera "COM3")) in
  camera_status (snd (get_serial_camera_picture serial_world true self))
  = DISCONNECTED.
Proof.
  apply (X10_serial_port_failure serial_world true
           (set_serial_connection
              (Some {| port := "COM3"; is_open := false; rx := [] |})
              (set_camera_status CONNECTED (example_camera "COM3")))
           {| port := "COM3"; is_open := false; rx := [] |}).
  - reflexivity.
  - reflexivity.
  - discriminate.
Defined.

(** ** What [start_serial_connection] leaves behind *)

Lemma opt_Source_eqb_eq a b : opt_Source_eqb a b = true -> a = b.
Proof.
  destruct a as [[i|s]|], b as [[j|t]|]; cbn; try discriminate; intros H.
  - apply Z.eqb_eq in H. congruence.
  - apply String.eqb_eq in H. congruence.
  - reflexivity.
Qed.

(** X11 (one port at a time).  After [start_serial_connection(port)],
    whatever the connection was before and whatever the outcome: a
    connection that is open is open on [port] (one open on another port has
    been closed first, also when the new port cannot be opened); and when
    [port] is not among the enumerated ports nothing is opened and the status
    is left as it was, without an error. *)
Theorem X11_start_serial_connection_outcome (w : World) (port0 : option Source)
  (self : Camera) :
  let self' := snd (start_serial_connection w port0 self) in
  (forall c, serial_connection self' = Some c -> is_open c = true ->
             port0 = Some (SrcStr (port c))) /\
  (existsb (port_in port0) (comports w) = false ->
   camera_status self' = camera_status self /\
   forall c, serial_connection self' = Some c -> is_open c = true ->
             serial_connection self = Some c).
Proof.
  cbv zeta.
  destruct self as [st cfg stg cl q ev cur cap sc lft f0 b0 buf sp fs cs].
  unfold start_serial_connection, conn_close, with_conn. munfold. mred.
  destruct sc as [[pt o r]|]; mred.
  - destruct o; mred.
    + destruct (opt_Source_eqb (Some (SrcStr pt)) port0) eqn:E; mred.
      * split.
        -- intros c Hc _. injection Hc as <-. cbn [port].
           symmetry. apply opt_Source_eqb_eq. exact E.
        -- intros _. split; [reflexivity|]. intros c Hc _. exact Hc.
      * destruct (existsb (port_in port0) (comports w)); cbn [negb]; mred.
        -- split; [|discriminate].
           destruct port0 as [[z|p]|]; mred;
             try (intros c Hc Ho; injection Hc as <-; discriminate).
           destruct (serial_opens w p); mred;
             intros c Hc Ho; injection Hc as <-; [reflexivity|discriminate].
        -- split; [|intros _; split; [reflexivity|]];
             intros c Hc Ho; injection Hc as <-; discriminate.
    + destruct (existsb (port_in port0) (comports w)); cbn [negb]; mred.
      * split; [|discriminate].
        destruct port0 as [[z|p]|]; mred;
          try (intros c Hc Ho; injection Hc as <-; discriminate).
        destruct (serial_opens w p); mred;
          intros c Hc Ho; injection Hc as <-; [reflexivity|discriminate].
      * split; [|intros _; split; [reflexivity|]];
          intros c Hc Ho; injection Hc as <-; discriminate.
  - destruct (existsb (port_in port0) (comports w)); cbn [negb]; mred.
    + split; [|discriminate].
      destruct port0 as [[z|p]|]; mred; try discriminate.
      destruct (serial_opens w p); mred;
        intros c Hc Ho; [injection Hc as <-; reflexivity|discriminate].
    + split; [|intros _; split; [reflexivity|]]; discriminate.
Qed.

Lemma X11_start_serial_connection_outcome_witness :
  Some (SrcStr "COM3")
  = Some (SrcStr (port {| port := "COM3"; is_open := true; rx := wire_good_checksum |})) /\
  camera_status (snd (start_serial_connection webcam_world (Some (SrcStr "COM3"))
                        (example_camera "COM3")))
  = CONNECTING.
Proof.
  split.
  - apply (proj1 (X11_start_serial_connection_outcome serial_world
                    (Some (SrcStr "COM3")) (example_camera "COM3"))
             {| port := "COM3"; is_open := true; rx := wire_good_checksum |});
      reflexivity.
  - apply (proj2 (X11_start_serial_connection_outcome webcam_world
                    (Some (SrcStr "COM3")) (example_camera "COM3"))).
    reflexivity.
Defined.

(** ** A webcam read that fails *)

(** An iteration on a healthy webcam with a request pending: [__del__], then
    one read that is pushed. *)
Lemma run_iter_webcam_request w self :
  webcam_source (capture_source (config self)) ->
  cv2_stale self = false -> capture_event self = true ->
  cancellation_is_set w = false ->
  run_iter w self
  = (Val Continue, snd (get_cv2_camera_picture w true (closed self))).
Proof.
  intros (Hn & He & Hcom & Htty) Hst Hev Hset.
  unfold run_iter. rewrite Hset. unfold bind at 1.
  rewrite (ensure_connected_webcam_healthy w self Hn He Hcom Hst).
  munfold. mred. rewrite Hev. cbn [negb]. cbv beta. rewrite Hn. mred.
  rewrite Hcom, Htty. mred.
  unfold closed. destruct (del self) as [rd s1] eqn:Hd.
  rewrite del_eq in Hd. injection Hd as <- Hs1. cbn [snd].
  pose proof (get_cv2_camera_picture_no_raise w true s1) as Hr.
  destruct (get_cv2_camera_picture w true s1) as [[[]|] s2]; cbn [fst snd] in *;
    [reflexivity|congruence].
Qed.

(** A read that fails: the position is rewound, the status becomes
    [DISCONNECTED], and nothing else of interest changes. *)
Lemma get_cv2_camera_picture_failure w b self cap :
  cv2_camera self = Some cap -> fst (vc_read cap) = None ->
  let self' := snd (get_cv2_camera_picture w b self) in
  camera_status self' = DISCONNECTED /\
  camera_output_outgoing self' = camera_output_outgoing self /\
  capture_event self' = capture_event self /\
  config self' = config self /\
  cv2_camera self' = Some (vc_set CAP_PROP_POS_FRAMES 0 (snd (vc_read cap))).
Proof.
  intros Hc Hr. cbv zeta.
  destruct self as [st cfg stg cl q ev cur cap0 sc lft f0 b0 buf sp fs cs].
  cbn [cv2_camera] in Hc. subst cap0.
  unfold get_cv2_camera_picture. munfold. mred.
  destruct (vc_read cap) as [[image|] cap']; cbn [fst] in Hr; [discriminate|].
  mred. repeat split.
Qed.

(** X12 (a webcam read that fails).  On a healthy webcam with a request
    pending, an iteration whose read fails rewinds the capture to frame 0,
    sets the status to [DISCONNECTED] and pushes nothing; the request stays
    pending.  The next iteration (with a webcam still configured and no
    cancellation) is then a reconnection: it opens a new capture, reads once
    without pushing and sets the status to [CONNECTED], whether that read
    succeeds or not; the queue is still as it was and the request is still
    pending, to be served by a later iteration. *)
Theorem X12_webcam_read_failure_reopens (w1 w2 : World) (e : External)
  (self : Camera) :
  webcam_source (capture_source (config self)) ->
  cv2_stale self = false -> capture_event self = true ->
  next_frame self = None ->
  cancellation_is_set w1 = false ->
  webcam_source (capture_source (ext_config e)) ->
  cancellation_is_set w2 = false -> cancellation_wait w2 = false ->
  let s1 := snd (run_iter w1 self) in
  let s2 := snd (run_iter w2 (external e s1)) in
  fst (run_iter w1 self) = Val Continue /\
  camera_status s1 = DISCONNECTED /\
  camera_output_outgoing s1 = camera_output_outgoing self /\
  capture_event s1 = true /\
  (exists cap, cv2_camera s1 = Some cap /\ vc_pos cap = 0%Z) /\
  run_iter w2 (external e s1)
  = (Val Continue,
     set_camera_status CONNECTED
       (snd (get_cv2_camera_picture w2 false
               (closed (reopened w2 (external e s1)))))) /\
  camera_status s2 = CONNECTED /\
  camera_output_outgoing s2 = camera_output_outgoing self /\
  capture_event s2 = true.
Proof.
  intros Hsrc Hst Hev Hnf Hset1 Hsrc2 Hset2 Hw2. cbv zeta.
  rewrite (run_iter_webcam_request w1 self Hsrc Hst Hev Hset1). cbn [fst snd].
  destruct (closed_fields self) as (Ccfg & Cstat & Cq & Ccap & _).
  assert (Cev : capture_event (closed self) = capture_event self).
  { destruct (pictures_unpushed (camera_output_outgoing self) (capture_event self) w1)
      as (_ & _ & Hd).
    apply (Hd self). split; reflexivity. }
  assert (Hcap : exists cap, cv2_camera self = Some cap).
  { unfold cv2_stale in Hst. destruct (cv2_camera self); [eauto|discriminate]. }
  destruct Hcap as (cap & Hcap).
  assert (Hread : fst (vc_read cap) = None).
  { unfold next_frame in Hnf. rewrite Hcap in Hnf. exact Hnf. }
  assert (Hcap' : cv2_camera (closed self) = Some cap) by congruence.
  destruct (get_cv2_camera_picture_failure w1 true (closed self) cap Hcap' Hread)
    as (F1 & F2 & F3 & F4 & F5).
  set (s1 := snd (get_cv2_camera_picture w1 true (closed self))) in *.
  destruct (external_fields e s1) as (_ & Est & Eq & Eev & _ & _ & Ecfg & _).
  assert (Hstale : cv2_stale (external e s1) = true).
  { unfold cv2_stale. rewrite Est, F1. cbn [CameraState_eqb].
    rewrite orb_true_r. reflexivity. }
  assert (Hsrc2' : webcam_source (capture_source (config (external e s1))))
    by (rewrite Ecfg; exact Hsrc2).
  rewrite (run_iter_warmup w2 (external e s1) Hsrc2' Hstale Hset2 Hw2). cbn [snd].
  split; [reflexivity|]. split; [exact F1|]. split; [congruence|].
  split; [congruence|].
  split; [eexists; split; [exact F5|reflexivity]|].
  split; [reflexivity|].
  assert (Hkeep : queue_is (camera_output_outgoing self) true
                    (snd (get_cv2_camera_picture w2 false
                            (closed (reopened w2 (external e s1)))))).
  { destruct (pictures_unpushed (camera_output_outgoing self) true w2)
      as (_ & Hp & Hd).
    apply Hp. unfold closed. apply Hd.
    destruct (reopened_fields w2 (external e s1)) as (_ & _ & Rq & _ & Rev & _).
    split; [rewrite Rq, Eq; congruence|].
    rewrite Rev, Eev, F3, Cev, Hev. reflexivity. }
  destruct Hkeep as (K1 & K2).
  destruct (snd (get_cv2_camera_picture w2 false _)); cbn in *. auto.
Qed.

Lemma X12_webcam_read_failure_reopens_witness :
  let s1 := snd (run_iter webcam_world failing_webcam) in
  let s2 := snd (run_iter webcam_world (external (same_config "0" false) s1)) in
  camera_status s1 = DISCONNECTED /\ camera_status s2 = CONNECTED /\
  capture_event s2 = true.
Proof.
  destruct (X12_webcam_read_failure_reopens webcam_world webcam_world
              (same_config "0" false) failing_webcam)
    as (_ & H1 & _ & _ & _ & _ & H2 & _ & H3).
  - repeat split; reflexivity.
  - reflexivity.
  - reflexivity.
  - reflexivity.
  - reflexivity.
  - repeat split; reflexivity.
  - reflexivity.
  - reflexivity.
  - cbv zeta. split; [exact H1|]. split; [exact H2|exact H3].
Defined.

(** ** A webcam read that succeeds *)




(** ** The empty source *)




(** ** Without a request *)

Lemma run_iter_idle w self :
  settled self -> capture_event self = false -> cancellation_is_set w = false ->
  run_iter w self = (Val Continue, self).
Proof.
  intros (Hn & He & Hst) Hev Hset.
  unfold run_iter. rewrite Hset. unfold bind at 1.
  destruct (str_contains "COM" (py_str (capture_source (config self)))) eqn:Hcom.
  - rewrite (ensure_connected_serial_healthy w self Hn He Hcom Hst).
    munfold. mred. rewrite Hev. reflexivity.
  - rewrite (ensure_connected_webcam_healthy w self Hn He Hcom Hst).
    munfold. mred. rewrite Hev. reflexivity.
Qed.

Lemma settled_external e self :
  settled self ->
  capture_source (ext_config e) = capture_source (config self) ->
  settled (external e self).
Proof.
  intros (Hn & He & Hst) Hsrc.
  destruct self as [st cfg stg cl q ev cur cap sc lft f0 b0 buf sp fs cs].
  unfold settled, serial_stale, cv2_stale, external in *. mred.
  cbn [config serial_connection camera_status current_capture_source cv2_camera] in *.
  rewrite Hsrc. split; [exact Hn|]. split; [exact He|].
  destruct (str_contains "COM" (py_str (capture_source cfg))); [|exact Hst].
  destruct sc; exact Hst.
Qed.

(** X15 (without a request the loop touches nothing).  While no frame is
    requested, the source stays the one configured, its connection is up to
    date and nobody cancels, the iterations of [run] do nothing at all: the
    camera after the run is the camera before it with only what the other
    threads did to it.  In particular the port is not read, so the bytes the
    device sends pile up on the line, and no call is made. *)
Theorem X15_no_request_no_work (ws : list (External * World)) (self : Camera) :
  settled self -> capture_event self = false ->
  Forall (fun ew =>
            ext_request (fst ew) = false /\
            capture_source (ext_config (fst ew)) = capture_source (config self) /\
            cancellation_is_set (snd ew) = false) ws ->
  run ws self = others_only ws self.
Proof.
  revert self. induction ws as [|[e w] ws IH]; intros self Hs Hev Hall; [reflexivity|].
  apply Forall_cons_iff in Hall. destruct Hall as ((Hreq & Hsrc & Hset) & Hall).
  cbn [fst snd] in *. cbn [run others_only fold_left fst].
  destruct (external_fields e self) as (_ & _ & _ & Eev & _ & _ & Ecfg & _).
  assert (Hev' : capture_event (external e self) = false)
    by (rewrite Eev, Hev, Hreq; reflexivity).
  rewrite (run_iter_idle w (external e self) (settled_external e self Hs Hsrc) Hev' Hset).
  apply IH.
  - apply settled_external; assumption.
  - exact Hev'.
  - rewrite Ecfg, Hsrc. exact Hall.
Qed.

Lemma X15_no_request_no_work_witness :
  run [(same_config "COM3" false, serial_world); (same_config "COM3" false, serial_world)]
    (set_camera_status CONNECTED (serial_camera wire_good_checksum))
  = others_only
      [(same_config "COM3" false, serial_world); (same_config "COM3" false, serial_world)]
      (set_camera_status CONNECTED (serial_camera wire_good_checksum)).
Proof.
  apply (X15_no_request_no_work
           [(same_config "COM3" false, serial_world);
            (same_config "COM3" false, serial_world)]
           (set_camera_status CONNECTED (serial_camera wire_good_checksum))).
  - split; [reflexivity|]. split; reflexivity.
  - reflexivity.
  - apply Forall_cons; [|apply Forall_cons; [|apply Forall_nil]];
      (split; [reflexivity|]; split; reflexivity).
Defined.

(** ** How far [clamp_max_res] can miss the cap *)

Lemma long_side_ok_upto_spec n : forall m,
  long_side_ok_upto m n = true ->
  forall z, (m <= z < m + Z.of_nat n)%Z -> long_side_ok z = true.
Proof.
  induction n as [|n IH]; intros m H z Hz; [lia|].
  cbn [long_side_ok_upto] in H. apply andb_true_iff in H. destruct H as [H0 H1].
  destruct (Z.eq_dec z m) as [->|Hne]; [exact H0|].
  apply (IH _ H1). lia.
Qed.

Lemma long_side_ok_20000 z : (601 <= z <= 20000)%Z -> long_side_ok z = true.
Proof.
  intros Hz. apply (long_side_ok_upto_spec 19400 601).
  - vm_compute. reflexivity.
  - assert (E : Z.of_nat 19400 = 19400%Z) by (vm_compute; reflexivity).
    rewrite E. lia.
Qed.

Lemma long_side_scaled m :
  (601 <= Z.of_nat m <= 20000)%Z ->
  let x := Z.to_nat (int_of_float
                       (fmul (float_of_nat m)
                          (fdiv (float_of_nat MAX_RESOLUTION) (float_of_nat m)))) in
  x = 599 \/ x = 600.
Proof.
  intros Hm. pose proof (long_side_ok_20000 _ Hm) as H.
  unfold long_side_ok in H. cbv zeta in *.
  change (float_of_nat m) with (float_of_Z (Z.of_nat m)).
  apply orb_true_iff in H. destruct H as [H|H]; apply Z.eqb_eq in H; rewrite H;
    [left|right]; reflexivity.
Qed.

(** X16 (the clamp misses the cap by at most one).  For an image whose
    longest side exceeds 600 and is at most 20000, [clamp_max_res] keeps the
    channels and gives the side that was the longest the length 599 or 600:
    the truncation of the binary64 product never loses more than one pixel
    (and never gains one). *)
Theorem X16_clamp_max_res_long_side (image : Image) (h w : nat) (rest : list nat) :
  shape image = h :: w :: rest ->
  MAX_RESOLUTION < np_max (shape image) ->
  (Z.of_nat (np_max (shape image)) <= 20000)%Z ->
  exists h' w',
    shape (clamp_max_res image) = h' :: w' :: rest /\
    (w = np_max (shape image) -> w' = 599 \/ w' = 600) /\
    (h = np_max (shape image) -> h' = 599 \/ h' = 600).
Proof.
  intros Hsh Hgt Hle. unfold clamp_max_res.
  apply Nat.ltb_lt in Hgt. rewrite Hgt. apply Nat.ltb_lt in Hgt.
  unfold cv2_resize. cbn [shape]. rewrite Hsh. cbn [nth skipn].
  eexists _, _. split; [reflexivity|].
  assert (Hm : (601 <= Z.of_nat (np_max (h :: w :: rest)) <= 20000)%Z).
  { rewrite Hsh in Hgt, Hle. unfold MAX_RESOLUTION in Hgt. lia. }
  split; intros E; rewrite <- E in Hm |- *; apply long_side_scaled; exact Hm.
Qed.

Lemma X16_clamp_max_res_long_side_witness :
  exists h' w',
    shape (clamp_max_res (Frame [700; 1109; 3] 0)) = [h'; w'; 3] /\
    (1109 = np_max [700; 1109; 3] -> w' = 599 \/ w' = 600) /\
    (700 = np_max [700; 1109; 3] -> h' = 599 \/ h' = 600).
Proof.
  apply (X16_clamp_max_res_long_side (Frame [700; 1109; 3] 0) 700 1109 [3]).
  - reflexivity.
  - vm_compute. lia.
  - vm_compute. discriminate.
Defined.

(** ** What the checksum detects *)

Lemma byte_values_spec a : (a < 256)%N -> In a byte_values.
Proof.
  intros H. unfold byte_values. rewrite <- (N2Nat.id a). apply in_map.
  apply in_seq. lia.
Qed.

Lemma rohc_tables : rohc_tables_ok = true.
Proof. vm_compute. reflexivity. Qed.

Lemma rohc_tables_spec a b :
  (a < 256)%N -> (b < 256)%N ->
  (Nat.iter 8 rohc_shift a < 256)%N /\
  (N.lxor a b < 256)%N /\
  (Nat.iter 8 rohc_shift a = Nat.iter 8 rohc_shift b -> a = b) /\
  (inverted_low_byte a = inverted_low_byte b -> a = b).
Proof.
  intros Ha Hb. pose proof rohc_tables as H. unfold rohc_tables_ok in H.
  rewrite forallb_forall in H. specialize (H a (byte_values_spec a Ha)).
  apply andb_true_iff in H. destruct H as [H1 H].
  rewrite forallb_forall in H. specialize (H b (byte_values_spec b Hb)).
  apply andb_true_iff in H. destruct H as [H H4].
  apply andb_true_iff in H. destruct H as [H2 H3].
  apply N.ltb_lt in H1. apply N.ltb_lt in H2.
  split; [exact H1|]. split; [exact H2|]. split; intros E.
  - rewrite E, N.eqb_refl in H3. cbn in H3. apply N.eqb_eq. exact H3.
  - rewrite E, bytes_eqb_refl in H4. cbn in H4. apply N.eqb_eq. exact H4.
Qed.

Lemma Byte_to_N_lt x : (Byte.to_N x < 256)%N.
Proof. pose proof (Byte_to_N_le x). lia. Qed.

Lemma Byte_to_N_inj x y : Byte.to_N x = Byte.to_N y -> x = y.
Proof.
  intros H. pose proof (Byte.of_to_N x) as Hx. pose proof (Byte.of_to_N y) as Hy.
  rewrite H in Hx. congruence.
Qed.

Lemma lxor_cancel_l a b c : N.lxor a b = N.lxor a c -> b = c.
Proof.
  intros H. rewrite <- (N.lxor_0_l b), <- (N.lxor_0_l c), <- (N.lxor_nilpotent a).
  rewrite !N.lxor_assoc, H. reflexivity.
Qed.

Lemma lxor_cancel_r a b c : N.lxor b a = N.lxor c a -> b = c.
Proof. rewrite !(N.lxor_comm _ a). apply lxor_cancel_l. Qed.

Lemma rohc_byte_range c x : (c < 256)%N -> (rohc_byte c x < 256)%N.
Proof.
  intros Hc. unfold rohc_byte.
  destruct (rohc_tables_spec c (Byte.to_N x) Hc (Byte_to_N_lt x)) as (_ & Hx & _).
  apply (rohc_tables_spec _ 0%N Hx). reflexivity.
Qed.

Lemma rohc_byte_inj_byte c x y :
  (c < 256)%N -> rohc_byte c x = rohc_byte c y -> x = y.
Proof.
  intros Hc H. unfold rohc_byte in H.
  destruct (rohc_tables_spec c (Byte.to_N x) Hc (Byte_to_N_lt x)) as (_ & Hx & _).
  destruct (rohc_tables_spec c (Byte.to_N y) Hc (Byte_to_N_lt y)) as (_ & Hy & _).
  destruct (rohc_tables_spec _ _ Hx Hy) as (_ & _ & Hinj & _).
  apply Byte_to_N_inj. apply (lxor_cancel_l c). apply Hinj. exact H.
Qed.

Lemma rohc_byte_inj_crc c d x :
  (c < 256)%N -> (d < 256)%N -> rohc_byte c x = rohc_byte d x -> c = d.
Proof.
  intros Hc Hd H. unfold rohc_byte in H.
  destruct (rohc_tables_spec c (Byte.to_N x) Hc (Byte_to_N_lt x)) as (_ & Hx & _).
  destruct (rohc_tables_spec d (Byte.to_N x) Hd (Byte_to_N_lt x)) as (_ & Hy & _).
  destruct (rohc_tables_spec _ _ Hx Hy) as (_ & _ & Hinj & _).
  apply (lxor_cancel_r (Byte.to_N x)). apply Hinj. exact H.
Qed.

Lemma rohc_fold_range l : forall c,
  (c < 256)%N -> (fold_left rohc_byte l c < 256)%N.
Proof.
  induction l as [|x l IH]; intros c Hc; cbn [fold_left]; [exact Hc|].
  apply IH. apply rohc_byte_range. exact Hc.
Qed.

Lemma rohc_fold_inj l : forall c d,
  (c < 256)%N -> (d < 256)%N ->
  fold_left rohc_byte l c = fold_left rohc_byte l d -> c = d.
Proof.
  induction l as [|x l IH]; intros c d Hc Hd H; cbn [fold_left] in H; [exact H|].
  apply (rohc_byte_inj_crc c d x Hc Hd).
  apply IH; [apply rohc_byte_range; exact Hc|apply rohc_byte_range; exact Hd|exact H].
Qed.

(** One changed byte changes the checksum byte. *)
Lemma checksum_detects_byte pre x y post :
  x <> y ->
  inverted_low_byte (rohc (pre ++ x :: post))
  <> inverted_low_byte (rohc (pre ++ y :: post)).
Proof.
  intros Hxy H. unfold rohc in H. rewrite !fold_left_app in H. cbn [fold_left] in H.
  set (c := fold_left rohc_byte pre 255%N) in *.
  assert (Hc : (c < 256)%N) by (apply rohc_fold_range; reflexivity).
  pose proof (rohc_byte_range c x Hc) as Hx.
  pose proof (rohc_byte_range c y Hc) as Hy.
  destruct (rohc_tables_spec _ _ (rohc_fold_range post _ Hx) (rohc_fold_range post _ Hy))
    as (_ & _ & _ & Hinv).
  apply Hxy. apply (rohc_byte_inj_byte c x y Hc).
  apply (rohc_fold_inj post _ _ Hx Hy). apply Hinv. exact H.
Qed.

(** X17 (one corrupted payload byte is caught).  Let the header search land
    on a complete, terminated frame whose payload differs in exactly one
    byte from the payload its checksum byte was computed for, and whose two
    trailer bytes are not the sentinel [ff a0].  Then [get_next_jpeg_frame]
    rejects it: it returns no payload.  (With the sentinel in the trailer the
    checksum is not looked at, and the corrupted payload is returned.) *)
Theorem X17_corrupted_byte_rejected (self : Camera) (conn : Serial) (beg : nat)
  (lo hi : byte) (pre : bytes) (sent received : byte) (post : bytes)
  (c1 c2 : byte) (tail : bytes) :
  serial_connection self = Some conn -> is_open conn = true ->
  locate_header (List.length (buffer self ++ firstn 2048 (rx conn))) (sp_max self)
    (buffer self ++ firstn 2048 (rx conn)) = Some beg ->
  framed (buffer self ++ firstn 2048 (rx conn)) beg lo hi
    (pre ++ received :: post) c1 c2 tail ->
  [c1] = inverted_low_byte (rohc (pre ++ sent :: post)) ->
  sent <> received ->
  [c1; c2] <> [xff; xa0] ->
  fst (get_next_jpeg_frame self) = Val None /\
  buffer (snd (get_next_jpeg_frame self))
  = tail ++ late_bytes (List.length (pre ++ received :: post) + 8) (rx conn).
Proof.
  intros Hc Ho Hloc Hf Hsum Hne Hs.
  pose proof (framed_call self conn beg lo hi _ c1 c2 tail Hc Ho Hloc Hf) as H.
  cbv zeta in H.
  assert (Hk : [c1] <> inverted_low_byte (rohc (pre ++ received :: post))).
  { rewrite Hsum. apply checksum_detects_byte. exact Hne. }
  apply bytes_eqb_neq in Hs. apply bytes_eqb_neq in Hk.
  rewrite Hs, Hk in H. cbn [negb andb] in H.
  destruct H as (H1 & H2 & _). split; assumption.
Qed.

Lemma X17_corrupted_byte_rejected_witness :
  fst (get_next_jpeg_frame
         (serial_camera (ETVR_HEADER ++ [x03; x00] ++ [x02; xff; xd9]
                         ++ [x03; x07] ++ [x08; x09])))
  = Val None.
Proof.
  apply (X17_corrupted_byte_rejected
           (serial_camera (ETVR_HEADER ++ [x03; x00] ++ [x02; xff; xd9]
                           ++ [x03; x07] ++ [x08; x09]))
           {| port := "COM3"; is_open := true;
              rx := ETVR_HEADER ++ [x03; x00] ++ [x02; xff; xd9]
                    ++ [x03; x07] ++ [x08; x09] |}
           0 x03 x00 [] x01 x02 [xff; xd9] x03 x07 [x08; x09]).
  - reflexivity.
  - reflexivity.
  - vm_compute. reflexivity.
  - split; [reflexivity|]. split; [reflexivity|]. exists [x02]. reflexivity.
  - vm_compute. reflexivity.
  - discriminate.
  - discriminate.
Defined.
